(** * Realtime JS console: the host/sandbox message protocol of [main.js]

    The development embeds the execution core of [main.js]
    (lines 24-73: [createSandbox], [clearConsole], [printLine], [format],
    the host [message] listener and [run]) together with the script that
    [createSandbox] injects into the sandboxed iframe, and checks the
    testable properties of the specification against it.

    Layout:
    - [Js]       the fragment of JavaScript values and built-ins the code uses;
    - [Host]     the parent page: DOM state, [printLine], the listener, [run];
    - [Sandbox]  the injected script, over an abstract script engine;
    - [Loop]     the host event loop with the queues of posted messages;
    - [Sample]   an engine that knows a handful of scripts, for examples. *)

From Stdlib Require Import List String Ascii ZArith Bool Lia.
From Stdlib Require Import Numbers.DecimalString.
Import ListNotations.

Local Open Scope list_scope.
Local Open Scope string_scope.

(** ** Exceptions

    A JavaScript expression either completes with a value or throws.  On the
    host side every exception the embedded code can raise is a [TypeError]
    made by the engine; its payload is never inspected, so a bare [Throw]
    stands for it. *)

Inductive Res (A : Type) : Type :=
| Ok (a : A)
| Throw.

Arguments Ok {A} a.
Arguments Throw {A}.

Definition bind {A B : Type} (r : Res A) (k : A -> Res B) : Res B :=
  match r with
  | Ok a => k a
  | Throw => Throw
  end.

Notation "x <- r ;; k" := (bind r (fun x => k))
  (at level 61, r at next level, right associativity).

Definition throws {A : Type} (r : Res A) : bool :=
  match r with
  | Ok _ => false
  | Throw => true
  end.

(** ** JavaScript values and built-ins *)

Module Js.

(** Values that user code can hand to an output call and that survive the
    structured clone of [postMessage].  [VNum z] is the number whose value is
    the integer [z] (the doubles that are integers; their decimal rendering is
    the one of [z] below 10^21), [VNaN] and [VInfinity] the three non-finite
    doubles.  A string is a sequence of code units below 256.  [VObject] lists
    the own enumerable properties of a plain object in the engine's
    enumeration order; a property is looked up by its first occurrence.
    [VError] is an [Error] instance with its [name], its [message] and the
    value of its [stack] property ([VUndefined] when there is none: engines
    attach a string, and code may assign anything). *)
#[local] Unset Elimination Schemes.
Inductive Value : Type :=
| VUndefined
| VNull
| VBool (b : bool)
| VNum (z : Z)
| VNaN
| VInfinity (negative : bool)
| VBigInt (z : Z)
| VString (s : string)
| VArray (elems : list Value)
| VObject (props : list (string * Value))
| VError (name message : string) (stack : Value).
#[local] Set Elimination Schemes.

(** ToBoolean. *)
Definition truthy (v : Value) : bool :=
  match v with
  | VUndefined | VNull | VNaN => false
  | VBool b => b
  | VNum z => negb (Z.eqb z 0)
  | VInfinity _ => true
  | VBigInt z => negb (Z.eqb z 0)
  | VString s => negb (String.eqb s EmptyString)
  | VArray _ | VObject _ | VError _ _ _ => true
  end.

(** [a || b] and [a && b] on values already evaluated (both operands of every
    use in the program are free of effects). *)
Definition js_or (a b : Value) : Value := if truthy a then a else b.
Definition js_and (a b : Value) : Value := if truthy a then b else a.

Fixpoint lookup (k : string) (ps : list (string * Value)) : option Value :=
  match ps with
  | [] => None
  | (k', v) :: r => if String.eqb k k' then Some v else lookup k r
  end.

(** [v.k] for a value [v] that is neither [undefined] nor [null] and a
    property name [k] that no built-in prototype defines; the program reads
    [__fromSandbox], [type], [args], [__runCode], [code] and [stack] only, and
    always behind a truthiness test of [v].  On [undefined] and [null] the
    access throws. *)
Definition get (v : Value) (k : string) : Res Value :=
  match v with
  | VUndefined | VNull => Throw
  | VObject ps =>
      Ok match lookup k ps with
         | Some x => x
         | None => VUndefined
         end
  | VError n m st =>
      Ok (if String.eqb k "stack" then st
          else if String.eqb k "message" then VString m
          else if String.eqb k "name" then VString n
          else VUndefined)
  | _ => Ok VUndefined
  end.

(** Number::toString, radix 10, on integers. *)
Definition string_of_Z (z : Z) : string :=
  NilZero.string_of_int (Z.to_int z).

(** [l.join(sep)] on strings already converted. *)
Fixpoint join (sep : string) (l : list string) : string :=
  match l with
  | [] => EmptyString
  | [s] => s
  | s :: r => s ++ sep ++ join sep r
  end.

(** QuoteJSONString on code units below 256: the quote, the backslash and
    the control characters are escaped, everything else is copied. *)
Definition dquote : string := String "034"%char EmptyString.
Definition backslash : string := String "092"%char EmptyString.

Definition hex_digit (n : nat) : ascii :=
  nth n (list_ascii_of_string "0123456789abcdef") "0"%char.

Definition quote_char (c : ascii) : string :=
  let n := nat_of_ascii c in
  if Nat.eqb n 34 then backslash ++ dquote
  else if Nat.eqb n 92 then backslash ++ backslash
  else if Nat.eqb n 8 then backslash ++ "b"
  else if Nat.eqb n 9 then backslash ++ "t"
  else if Nat.eqb n 10 then backslash ++ "n"
  else if Nat.eqb n 12 then backslash ++ "f"
  else if Nat.eqb n 13 then backslash ++ "r"
  else if Nat.ltb n 32 then
    backslash ++ "u00" ++
    String (hex_digit (Nat.div n 16)) (String (hex_digit (Nat.modulo n 16)) EmptyString)
  else String c EmptyString.

Fixpoint quote_body (s : string) : string :=
  match s with
  | EmptyString => EmptyString
  | String c r => quote_char c ++ quote_body r
  end.

Definition quote (s : string) : string := dquote ++ quote_body s ++ dquote.

(** [JSON.stringify(v)]: [Ok None] is the result [undefined], [Throw] the
    [TypeError] raised on a BigInt.  An array element without serialization
    is written [null], an object property without one is left out; an
    [Error] has no enumerable own property. *)
Fixpoint stringify (v : Value) : Res (option string) :=
  match v with
  | VUndefined => Ok None
  | VNull => Ok (Some "null")
  | VBool b => Ok (Some (if b then "true" else "false"))
  | VNum z => Ok (Some (string_of_Z z))
  | VNaN | VInfinity _ => Ok (Some "null")
  | VBigInt _ => Throw
  | VString s => Ok (Some (quote s))
  | VArray l =>
      let fix elems (l : list Value) : Res (list string) :=
        match l with
        | [] => Ok []
        | x :: r =>
            o <- stringify x ;;
            rs <- elems r ;;
            Ok (match o with Some s => s | None => "null" end :: rs)
        end in
      parts <- elems l ;;
      Ok (Some ("[" ++ join "," parts ++ "]"))
  | VObject ps =>
      let fix members (ps : list (string * Value)) : Res (list string) :=
        match ps with
        | [] => Ok []
        | (k, x) :: r =>
            o <- stringify x ;;
            rs <- members r ;;
            Ok (match o with
                | Some s => (quote k ++ ":" ++ s) :: rs
                | None => rs
                end)
        end in
      parts <- members ps ;;
      Ok (Some ("{" ++ join "," parts ++ "}"))
  | VError _ _ _ => Ok (Some "{}")
  end.

Definition has_own (k : string) (ps : list (string * Value)) : bool :=
  match lookup k ps with
  | Some _ => true
  | None => false
  end.

(** [String(v)], which on these values is ToString.  An array is joined with
    commas, [undefined] and [null] elements giving the empty string.  A plain
    object goes through OrdinaryToPrimitive: an own [toString] property
    shadows [Object.prototype.toString] and, being cloned data, is not
    callable; [valueOf] then returns the object itself, and the conversion
    raises a [TypeError].  [Error.prototype.toString] joins name and message
    with a colon unless one of them is empty. *)
Fixpoint to_string (v : Value) : Res string :=
  match v with
  | VUndefined => Ok "undefined"
  | VNull => Ok "null"
  | VBool b => Ok (if b then "true" else "false")
  | VNum z => Ok (string_of_Z z)
  | VNaN => Ok "NaN"
  | VInfinity neg => Ok (if neg then "-Infinity" else "Infinity")
  | VBigInt z => Ok (string_of_Z z)
  | VString s => Ok s
  | VArray l =>
      let fix elems (l : list Value) : Res (list string) :=
        match l with
        | [] => Ok []
        | x :: r =>
            s <- match x with
                 | VUndefined | VNull => Ok EmptyString
                 | _ => to_string x
                 end ;;
            rs <- elems r ;;
            Ok (s :: rs)
        end in
      parts <- elems l ;;
      Ok (join "," parts)
  | VObject ps =>
      if has_own "toString" ps then Throw else Ok "[object Object]"
  | VError n m _ =>
      Ok (if String.eqb n EmptyString then m
          else if String.eqb m EmptyString then n
          else n ++ ": " ++ m)
  end.

(** The iteration of a spread argument [...v]: arrays and strings are
    iterable, every other value of the model raises a [TypeError]. *)
Fixpoint chars (s : string) : list Value :=
  match s with
  | EmptyString => []
  | String c r => VString (String c EmptyString) :: chars r
  end.

Definition spread (v : Value) : Res (list Value) :=
  match v with
  | VArray l => Ok l
  | VString s => Ok (chars s)
  | _ => Throw
  end.

(** The values on which [String] returns: no plain object with an own
    [toString] property, at the top or as an element of nested arrays. *)
Fixpoint coercible (v : Value) : bool :=
  match v with
  | VArray l => forallb coercible l
  | VObject ps => negb (has_own "toString" ps)
  | _ => true
  end.



End Js.

(** ** The host page *)

Module Host.
Import Js.

(** A child of [consoleEl]: the [div] that [printLine] appends. *)
Record Line : Type := mkLine {
  className : string;
  textContent : string
}.

(** What the host does to the document and to its sandboxes, in program
    order.  The trace is an observer: no function reads it. *)
Inductive Action : Type :=
| Cleared                          (* consoleEl.textContent = '' *)
| Removed (i : nat)                (* parentNode.removeChild(iframe) *)
| Attached (i : nat)               (* createElement + appendChild *)
| TimerSet                         (* setTimeout(send, 0) *)
| LoadListened (i : nat)           (* addEventListener('load', ..., once) *)
| Posted (i : nat) (data : Value)  (* contentWindow.postMessage(data, '*') *)
| Printed (l : Line).              (* consoleEl.appendChild(line) *)

(** The module-level state of [main.js] that the execution core touches.
    An iframe element is named by a number; [fresh] is the next unused one.
    [body] holds the iframes attached to [document.body], [timers] counts the
    pending [setTimeout(send, 0)] callbacks (they are all the same closure
    over the globals), [loads] the iframes that carry a pending once-only
    [load] listener. *)
Record State : Type := mkState {
  iframe : option nat;
  body : list nat;
  fresh : nat;
  consoleEl : list Line;
  editor : string;
  timers : nat;
  loads : list nat;
  trace : list Action
}.

(** The page once the script has loaded: [let iframe = null],
    [editor.value = ''], an empty console. *)
Definition init : State :=
  mkState None [] 0 [] EmptyString 0 [] [].

Definition mem (i : nat) (l : list nat) : bool := existsb (Nat.eqb i) l.

Definition drop (i : nat) (l : list nat) : list nat :=
  filter (fun j => negb (Nat.eqb i j)) l.

(** [iframe.parentNode]: the body while the element is attached. *)
Definition parentNode (h : State) (i : nat) : bool := mem i (body h).

(** [iframe.contentWindow]: non-null exactly while the element is attached. *)
Definition contentWindow (h : State) (i : nat) : bool := mem i (body h).

(** Line 26: [if (iframe && iframe.parentNode) iframe.parentNode.removeChild(iframe)]. *)
Definition removeOld (h : State) : State :=
  match iframe h with
  | Some i =>
      if parentNode h i then
        mkState (iframe h) (drop i (body h)) (fresh h) (consoleEl h)
                (editor h) (timers h) (loads h) (trace h ++ [Removed i])
      else h
  | None => h
  end.

(** Lines 27-33: a new element is created, assigned to [iframe], given the
    sandbox script as [srcdoc] and appended to the body. *)
Definition attachNew (h : State) : State :=
  let i := fresh h in
  mkState (Some i) (body h ++ [i]) (S i) (consoleEl h)
          (editor h) (timers h) (loads h) (trace h ++ [Attached i]).

Definition createSandbox (h : State) : State := attachNew (removeOld h).

Definition clearConsole (h : State) : State :=
  mkState (iframe h) (body h) (fresh h) []
          (editor h) (timers h) (loads h) (trace h ++ [Cleared]).

(** [format]: a string as it is, otherwise [JSON.stringify], and [String]
    when that throws.  [Ok None] is the value [undefined]. *)
Definition format (v : Value) : Res (option string) :=
  match v with
  | VString s => Ok (Some s)
  | _ =>
      match stringify v with
      | Ok o => Ok o
      | Throw => s <- to_string v ;; Ok (Some s)
      end
  end.

(** [parts.map(format)], left to right. *)
Fixpoint map_format (parts : list Value) : Res (list (option string)) :=
  match parts with
  | [] => Ok []
  | v :: r =>
      o <- format v ;;
      os <- map_format r ;;
      Ok (o :: os)
  end.

(** What [Array.prototype.join] makes of an element: [undefined] is the
    empty string. *)
Definition shown (o : option string) : string :=
  match o with
  | Some s => s
  | None => EmptyString
  end.

(** [consoleEl.appendChild(line)]. *)
Definition appendChild (line : Line) (h : State) : State :=
  mkState (iframe h) (body h) (fresh h) (consoleEl h ++ [line])
          (editor h) (timers h) (loads h) (trace h ++ [Printed line]).

(** [printLine(type, ...parts)].  The template literal converts [type] with
    ToString; an exception leaves the console as it was. *)
Definition printLine (type : Value) (parts : list Value) (h : State) : Res State :=
  cls <- to_string type ;;
  os <- map_format parts ;;
  Ok (appendChild (mkLine ("line " ++ cls) (join " " (map shown os))) h).

(** The [message] listener of the window, applied to [e.data].  Nothing else
    of the event is read. *)
Definition on_message (data : Value) (h : State) : Res State :=
  if negb (truthy data) then Ok h
  else
    flag <- get data "__fromSandbox" ;;
    if negb (truthy flag) then Ok h
    else
      type <- get data "type" ;;
      args <- get data "args" ;;
      parts <- spread (js_or args (VArray [])) ;;
      printLine (js_or type (VString "log")) parts h.

(** The test at the head of the listener: [data && data.__fromSandbox]. *)
Definition discriminated (data : Value) : bool :=
  truthy data &&
  match get data "__fromSandbox" with
  | Ok flag => truthy flag
  | Throw => false
  end.

(** The request [{ __runCode: true, code: editor.value }]. *)
Definition RunRequest (code : string) : Value :=
  VObject [("__runCode", VBool true); ("code", VString code)].

(** The closure [send] of [run]: it reads the globals [iframe] and
    [editor.value] when it is called. *)
Definition send (h : State) : State :=
  match iframe h with
  | Some i =>
      if contentWindow h i then
        mkState (iframe h) (body h) (fresh h) (consoleEl h)
                (editor h) (timers h) (loads h)
                (trace h ++ [Posted i (RunRequest (editor h))])
      else h
  | None => h
  end.

(** Lines 66-72 of [run]: the timer is set when the new iframe has a window,
    the [load] listener always. *)
Definition arm (h : State) : State :=
  match iframe h with
  | Some i =>
      let h1 :=
        if contentWindow h i then
          mkState (iframe h) (body h) (fresh h) (consoleEl h)
                  (editor h) (S (timers h)) (loads h) (trace h ++ [TimerSet])
        else h in
      mkState (iframe h1) (body h1) (fresh h1) (consoleEl h1)
              (editor h1) (timers h1) (loads h1 ++ [i])
              (trace h1 ++ [LoadListened i])
  | None => h
  end.

Definition run (h : State) : State := arm (createSandbox (clearConsole h)).

(** A pending timer fires: one callback is consumed and calls [send]. *)
Definition on_timer (h : State) : State :=
  match timers h with
  | O => h
  | S n =>
      send (mkState (iframe h) (body h) (fresh h) (consoleEl h)
                    (editor h) n (loads h) (trace h))
  end.

(** The [load] event of iframe [i]: its listener, if still registered, is
    removed and calls [send]. *)
Definition on_load (i : nat) (h : State) : State :=
  if mem i (loads h) then
    send (mkState (iframe h) (body h) (fresh h) (consoleEl h)
                  (editor h) (timers h) (drop i (loads h)) (trace h))
  else h.

(** The user edits the text; [editor.value] follows. *)
Definition on_input (text : string) (h : State) : State :=
  mkState (iframe h) (body h) (fresh h) (consoleEl h)
          text (timers h) (loads h) (trace h).

(** The requests posted so far, with the iframe they went to. *)
Fixpoint posted (t : list Action) : list (nat * Value) :=
  match t with
  | [] => []
  | Posted i d :: r => (i, d) :: posted r
  | _ :: r => posted r
  end.

(** The event loop dispatches a [message] event to the listener; an
    exception of the listener is reported to the page's own console and
    changes nothing. *)
Definition handle (data : Value) (h : State) : State :=
  match on_message data h with
  | Ok h' => h'
  | Throw => h
  end.



(** The tasks of the host's event loop that reach the execution core. *)
Inductive Event : Type :=
| Run
| Input (text : string)
| Timer
| Load (i : nat)
| Message (data : Value).

Definition react (h : State) (e : Event) : State :=
  match e with
  | Run => run h
  | Input text => on_input text h
  | Timer => on_timer h
  | Load i => on_load i h
  | Message data => handle data h
  end.

Definition after (es : list Event) : State := fold_left react es init.

(** The attached iframes are the current one, if any; every number in use is
    below [fresh]. *)
Definition wired (h : State) : Prop :=
  body h = match iframe h with
           | Some i => [i]
           | None => []
           end
  /\ (forall i, iframe h = Some i -> i < fresh h)
  /\ (forall i, In i (loads h) -> i < fresh h).

End Host.

(** ** The sandbox script

    The script that [createSandbox] writes into [srcdoc].  What
    [new Function(code)] and the call of the function do is the engine's
    business: the script sees it as a behaviour. *)

Module Sandbox.
Import Js.

Inductive Kind : Type := log | info | warn | error.

Definition kind_name (k : Kind) : string :=
  match k with
  | log => "log"
  | info => "info"
  | warn => "warn"
  | error => "error"
  end.

(** [send(type, args)]: the object handed to [parent.postMessage]. *)
Definition send (type : string) (args : list Value) : Value :=
  VObject [("__fromSandbox", VBool true);
           ("type", VString type);
           ("args", VArray args)].

(** [wrap(fn, type)] applied to the arguments [a]: the native call is tried
    and its failure swallowed, then the call is forwarded. *)
Definition wrap (k : Kind) (a : list Value) : Value := send (kind_name k) a.

(** One output of user code: a call of a patched console method, or a message
    it posts to the parent on its own. *)
Inductive Output : Type :=
| Call (k : Kind) (args : list Value)
| Raw (data : Value).

Definition post (o : Output) : Value :=
  match o with
  | Call k a => wrap k a
  | Raw d => d
  end.

(** The [ErrorEvent] of the [error] listener. *)
Record ErrorEvent : Type := mkErrorEvent {
  message : string;
  error_of : Value
}.

(** How a call that a listener of the script makes comes back. *)
Inductive Result : Type :=
| Done (v : Value)
| Raised (x : Value).

(** What the submitted code can change under the listeners of the script.
    The script runs in the global scope in which the submitted code runs
    afterwards, and its listeners look up [String] and [parent] when they are
    called: code that assigns to these names decides what the calls do.
    [bound_String] and [bound_parent] are [None] while the names are bound as
    the script found them; otherwise they give, for an argument, the messages
    that reach the host while the call runs and how the call ends
    ([parent.postMessage] is the call whose end is an exception or none).
    [stops_error] and [stops_rejection] say that a listener of the code, put
    in front of the one of the script, stops the event before the script
    hears it. *)
Record Realm : Type := mkRealm {
  bound_String : option (Value -> list Value * Result);
  bound_parent : option (Value -> list Value * option Value);
  stops_error : bool;
  stops_rejection : bool
}.

Definition pristine : Realm := mkRealm None None false false.

(** What happens in the context after the submitted function has returned:
    output from timers and promise reactions, an [unhandledrejection] event,
    an [error] event for an exception nobody caught; an event comes with the
    realm as it is when the event is dispatched. *)
Inductive Async : Type :=
| Emit (o : Output)
| Rejection (reason : Value) (r : Realm)
| Uncaught (e : ErrorEvent) (r : Realm).

(** The run of a submitted function: the outputs it makes before it
    completes, the value it throws if it throws, the realm as it leaves it,
    and what it leaves scheduled, in the order in which that will happen. *)
Record Behaviour : Type := mkBehaviour {
  sync : list Output;
  completion : option Value;
  realm : Realm;
  later : list Async
}.

(** The script engine: [execute src] is [new Function(src)] followed by the
    call (a syntax error is a behaviour that throws at once); [type_error] is
    the [TypeError] a failed ToString raises, [report x] the message of the
    [ErrorEvent] for an exception [x] that leaves a listener. *)
Record Engine : Type := mkEngine {
  execute : string -> Behaviour;
  type_error : Value;
  report : Value -> string
}.

(** The call [String(v)] in realm [r]. *)
Definition call_String (E : Engine) (r : Realm) (v : Value)
  : list Value * Result :=
  match bound_String r with
  | Some f => f v
  | None =>
      ([], match to_string v with
           | Ok s => Done (VString s)
           | Throw => Raised (type_error E)
           end)
  end.

(** The call [parent.postMessage(m, '*')] in realm [r]. *)
Definition call_postMessage (r : Realm) (m : Value)
  : list Value * option Value :=
  match bound_parent r with
  | Some f => f m
  | None => ([m], None)
  end.

(** [send('error', [String(v)])], the body of the three handlers: the
    messages that reach the host, and the exception that ends the call, if
    any.  The argument of [send] is evaluated first. *)
Definition send_error (E : Engine) (r : Realm) (v : Value)
  : list Value * option Value :=
  let (p1, res) := call_String E r v in
  match res with
  | Raised x => (p1, Some x)
  | Done s =>
      let (p2, x) := call_postMessage r (send "error" [s]) in
      ((p1 ++ p2)%list, x)
  end.

(** The [error] listener: [send('error', [String(e.message || e.error)])]. *)
Definition on_error (E : Engine) (r : Realm) (e : ErrorEvent)
  : list Value * option Value :=
  send_error E r (js_or (VString (message e)) (error_of e)).

(** The [unhandledrejection] listener: [send('error', [String(e.reason)])]. *)
Definition on_unhandledrejection (E : Engine) (r : Realm) (reason : Value)
  : list Value * option Value :=
  send_error E r reason.

(** [err && err.stack || err]; the property is read of a truthy value only,
    where the access does not throw. *)
Definition stack_or_self (err : Value) : Value :=
  match (if truthy err then get err "stack" else Ok err) with
  | Ok st => js_or st err
  | Throw => err
  end.

(** The [catch] block: [send('error', [String(err && err.stack || err)])]. *)
Definition caught (E : Engine) (r : Realm) (err : Value)
  : list Value * option Value :=
  send_error E r (stack_or_self err).

(** One run of the [message] listener: the messages it posts, what it leaves
    scheduled, the exception that leaves it, if any, and the realm it leaves
    behind. *)
Record Outcome : Type := mkOutcome {
  posts : list Value;
  pending : list Async;
  escaped : option Value;
  bindings : Realm
}.

Definition nothing : Outcome := mkOutcome [] [] None pristine.

(** The [message] listener.  [new Function(data.code)] converts its argument
    with ToString inside the [try]. *)
Definition on_message (E : Engine) (data : Value) : Outcome :=
  if negb (truthy data) then nothing
  else
    match get data "__runCode" with
    | Throw => nothing
    | Ok flag =>
        if negb (truthy flag) then nothing
        else
          let b :=
            match (c <- get data "code" ;; to_string c) with
            | Ok src => execute E src
            | Throw => mkBehaviour [] (Some (type_error E)) pristine []
            end in
          match completion b with
          | None => mkOutcome (map post (sync b)) (later b) None (realm b)
          | Some err =>
              let (p, x) := caught E (realm b) err in
              mkOutcome (map post (sync b) ++ p) (later b) x (realm b)
          end
    end.

(** The engine reports an exception that left a listener to the [error]
    listener, unless the event is stopped; an exception of that listener is
    not reported again. *)
Definition reported (E : Engine) (r : Realm) (x : Value) : list Value :=
  if stops_error r then []
  else fst (on_error E r (mkErrorEvent (report E x) x)).

(** The task that dispatches a message to the context: everything it posts. *)
Definition receive (E : Engine) (data : Value) : list Value :=
  let o := on_message E data in
  posts o ++ match escaped o with
             | Some x => reported E (bindings o) x
             | None => []
             end.

(** The task in which a scheduled happening takes place. *)
Definition fire (E : Engine) (a : Async) : list Value :=
  match a with
  | Emit o => [post o]
  | Rejection y r =>
      if stops_rejection r then []
      else
        let (p, x) := on_unhandledrejection E r y in
        p ++ match x with
             | Some x => reported E r x
             | None => []
             end
  | Uncaught e r =>
      if stops_error r then [] else fst (on_error E r e)
  end.

(** Everything a context posts in answer to one message, in posting order,
    when it is left to run. *)
Definition emitted (E : Engine) (data : Value) : list Value :=
  receive E data ++ flat_map (fire E) (pending (on_message E data)).

End Sandbox.

(** ** The event loop

    The host and its sandboxes as one transition system.  The windows talk
    through [postMessage] only: a posted message waits in the queue of the
    window it was posted to and is dispatched later, in posting order.
    - A message posted to an iframe whose [srcdoc] document has not loaded
      yet goes to the initial empty document and is lost.
    - A context runs tasks only while its iframe is attached: when the
      element is removed its document stops being active, timers and promise
      jobs no longer run, and [parent] is gone.  A message it posted before
      that stays in the queue of the host.
    - [origins] is an observer: for every line of the console, the context
      whose message produced it (the [source] of the event, which the
      listener does not read). *)

Module Loop.
Import Js.

Inductive Event : Type :=
| Run                   (* the user starts a run *)
| Input (text : string) (* the user edits the code *)
| Timer                 (* a pending timer of the host fires *)
| Load (i : nat)        (* the document of iframe [i] has loaded *)
| Receive               (* the oldest message to a sandbox is dispatched *)
| Fire (i : nat)        (* the next scheduled happening of context [i] *)
| Deliver.              (* the oldest message to the host is dispatched *)

Record Sys : Type := mkSys {
  host : Host.State;
  loaded : list nat;
  inbox : list (nat * Value);
  scheduled : list (nat * Sandbox.Async);
  queue : list (nat * Value);
  origins : list nat
}.

Definition init : Sys := mkSys Host.init [] [] [] [] [].

(** The requests the host has posted between two of its states, kept when
    the target has loaded its document. *)
Definition routed (ld : list nat) (h h' : Host.State) : list (nat * Value) :=
  filter (fun m => Host.mem (fst m) ld)
         (skipn (List.length (Host.posted (Host.trace h)))
                (Host.posted (Host.trace h'))).

Definition tag (i : nat) (l : list Value) : list (nat * Value) :=
  map (fun d => (i, d)) l.

(** The first scheduled happening of context [i], and the rest. *)
Fixpoint next (i : nat) (l : list (nat * Sandbox.Async))
  : option (Sandbox.Async * list (nat * Sandbox.Async)) :=
  match l with
  | [] => None
  | (j, a) :: r =>
      if Nat.eqb i j then Some (a, r)
      else match next i r with
           | Some (b, r') => Some (b, (j, a) :: r')
           | None => None
           end
  end.

Definition step (E : Sandbox.Engine) (s : Sys) (e : Event) : option Sys :=
  let h := host s in
  match e with
  | Run =>
      let h' := Host.run h in
      Some (mkSys h' (loaded s) (inbox s ++ routed (loaded s) h h')
                  (scheduled s) (queue s) [])
  | Input text =>
      Some (mkSys (Host.on_input text h) (loaded s) (inbox s)
                  (scheduled s) (queue s) (origins s))
  | Timer =>
      match Host.timers h with
      | O => None
      | S _ =>
          let h' := Host.on_timer h in
          Some (mkSys h' (loaded s) (inbox s ++ routed (loaded s) h h')
                      (scheduled s) (queue s) (origins s))
      end
  | Load i =>
      if Host.mem i (Host.body h) && negb (Host.mem i (loaded s)) then
        let h' := Host.on_load i h in
        let ld := i :: loaded s in
        Some (mkSys h' ld (inbox s ++ routed ld h h')
                    (scheduled s) (queue s) (origins s))
      else None
  | Receive =>
      match inbox s with
      | [] => None
      | (i, d) :: r =>
          if Host.mem i (Host.body h) then
            Some (mkSys h (loaded s) r
                        (scheduled s ++
                         map (fun a => (i, a))
                             (Sandbox.pending (Sandbox.on_message E d)))
                        (queue s ++ tag i (Sandbox.receive E d))
                        (origins s))
          else Some (mkSys h (loaded s) r (scheduled s) (queue s) (origins s))
      end
  | Fire i =>
      if Host.mem i (Host.body h) then
        match next i (scheduled s) with
        | Some (a, r) =>
            Some (mkSys h (loaded s) (inbox s) r
                        (queue s ++ tag i (Sandbox.fire E a)) (origins s))
        | None => None
        end
      else None
  | Deliver =>
      match queue s with
      | [] => None
      | (i, d) :: r =>
          let h' := Host.handle d h in
          Some (mkSys h' (loaded s) (inbox s) (scheduled s) r
                      (origins s ++
                       repeat i (List.length (Host.consoleEl h')
                                 - List.length (Host.consoleEl h))))
      end
  end.

Fixpoint steps (E : Sandbox.Engine) (s : Sys) (es : list Event) : option Sys :=
  match es with
  | [] => Some s
  | e :: r =>
      match step E s e with
      | Some s' => steps E s' r
      | None => None
      end
  end.

(** The state to which a schedule leads; the initial one when the loop
    cannot follow it. *)
Definition reached (E : Sandbox.Engine) (es : list Event) : Sys :=
  match steps E init es with
  | Some s => s
  | None => init
  end.

(** Every run of the schedule starts while no message to the host is
    waiting. *)
Fixpoint quiet (E : Sandbox.Engine) (s : Sys) (es : list Event) : bool :=
  match es with
  | [] => true
  | e :: r =>
      match e with
      | Run => match queue s with [] => true | _ => false end
      | _ => true
      end &&
      match step E s e with
      | Some s' => quiet E s' r
      | None => true
      end
  end.


(** The tasks that start no run and leave the text alone. *)
Definition hands_off (e : Event) : bool :=
  match e with
  | Run | Input _ => false
  | _ => true
  end.

(** What context [i] still has scheduled, in order. *)
Definition due (i : nat) (l : list (nat * Sandbox.Async)) : list Sandbox.Async :=
  map snd (filter (fun m => Nat.eqb i (fst m)) l).

(** What holds of the loop as long as every run starts with no message to
    the host under way: the waiting messages and the lines of the console come
    from the current context. *)
Definition settled (s : Sys) : Prop :=
  Host.wired (host s)
  /\ List.length (origins s) = List.length (Host.consoleEl (host s))
  /\ Forall (fun m => Host.iframe (host s) = Some (fst m)) (queue s)
  /\ Forall (fun i => Host.iframe (host s) = Some i) (origins s).

(** What holds of every state of the loop: the iframes that requests wait
    for, that have work scheduled or that have loaded were made before. *)
Definition bounded (s : Sys) : Prop :=
  Host.wired (host s)
  /\ Forall (fun m => fst m < Host.fresh (host s)) (inbox s)
  /\ Forall (fun m => fst m < Host.fresh (host s)) (scheduled s)
  /\ Forall (fun j => j < Host.fresh (host s)) (loaded s).


(** The run of the empty text in iframe [i], while nobody starts a run or
    edits: the console is empty, nothing is on its way to it, and the only
    request that can reach a context is the one for the empty text. *)
Definition idle (i : nat) (s : Sys) : Prop :=
  Host.iframe (host s) = Some i
  /\ Host.wired (host s)
  /\ Host.editor (host s) = EmptyString
  /\ Host.consoleEl (host s) = []
  /\ queue s = []
  /\ Forall (fun m => fst m < i \/ m = (i, Host.RunRequest EmptyString))
            (inbox s)
  /\ Forall (fun m => fst m < i) (scheduled s).

End Loop.

(** ** A sample engine

    The behaviours of a few scripts, as a browser runs them; every other
    text, the empty one included, does nothing. *)

Module Sample.
Import Js Sandbox.

Definition greeter : string := "console.log('Hello', 'World')".

Definition counter : string := "console.log(42); console.log({a:1})".

Definition thrower : string :=
  "const e = new Error('boom'); e.stack = 'unwound'; throw e".

Definition rejecter : string :=
  "console.log('first'); Promise.reject('gone'); console.log('second')".

Definition ticker : string :=
  "console.log('tick'); setTimeout(() => console.log('tock'), 500)".

Definition hider : string :=
  "String = () => 'hidden'; Promise.reject('gone')".

(** The realm after [hider] has run: [String] answers [hidden] to
    everything. *)
Definition hidden : Realm :=
  mkRealm (Some (fun _ => ([], Done (VString "hidden")))) None false false.

Definition scripts : list (string * Behaviour) :=
  [ (greeter,
     mkBehaviour [Call log [VString "Hello"; VString "World"]] None pristine []);
    (counter,
     mkBehaviour [Call log [VNum 42];
                  Call log [VObject [("a", VNum 1)]]] None pristine []);
    (thrower,
     mkBehaviour [] (Some (VError "Error" "boom" (VString "unwound")))
                 pristine []);
    (rejecter,
     mkBehaviour [Call log [VString "first"]; Call log [VString "second"]]
                 None pristine [Rejection (VString "gone") pristine]);
    (ticker,
     mkBehaviour [Call log [VString "tick"]] None pristine
                 [Emit (Call log [VString "tock"])]);
    (hider,
     mkBehaviour [] None hidden [Rejection (VString "gone") hidden]) ].

Fixpoint find_script (src : string) (l : list (string * Behaviour)) : Behaviour :=
  match l with
  | [] => mkBehaviour [] None pristine []
  | (k, b) :: r => if String.eqb src k then b else find_script src r
  end.

Definition engine : Engine :=
  mkEngine (fun src => find_script src scripts)
           (VError "TypeError" "can't convert value to primitive type"
                   VUndefined)
           (fun x => "uncaught exception").

End Sample.

(** * Properties *)

Import Js.

(** ** The context factory *)

Section Factory.
Import Host.

Lemma mem_true_iff (i : nat) (l : list nat) : mem i l = true <-> In i l.
Proof.
  unfold mem. rewrite existsb_exists. split.
  - intros (j & Hj & E). apply Nat.eqb_eq in E. now subst.
  - intros H. exists i. split; [assumption | apply Nat.eqb_refl].
Qed.

Lemma mem_fresh (h : State) : wired h -> mem (fresh h) (loads h) = false.
Proof.
  intros (_ & _ & H). destruct (mem (fresh h) (loads h)) eqn:E; [|reflexivity].
  apply mem_true_iff, H in E. lia.
Qed.

Lemma In_drop (i j : nat) (l : list nat) : In j (drop i l) -> In j l.
Proof. unfold drop. intros H. now apply filter_In in H. Qed.

Lemma removeOld_body (h : State) : wired h -> body (removeOld h) = [].
Proof.
  intros (Hb & _). unfold removeOld, parentNode.
  destruct (iframe h) as [i|] eqn:Ei; [|exact Hb].
  rewrite Hb. unfold mem, drop. simpl. now rewrite Nat.eqb_refl.
Qed.

Lemma removeOld_trace (h : State) :
  wired h ->
  trace (removeOld h) =
  (trace h ++ match iframe h with Some i => [Removed i] | None => [] end)%list.
Proof.
  intros (Hb & _). unfold removeOld, parentNode.
  destruct (iframe h) as [i|] eqn:Ei; [|now rewrite app_nil_r].
  rewrite Hb. unfold mem. simpl. now rewrite Nat.eqb_refl.
Qed.

Lemma removeOld_same (h : State) :
  iframe (removeOld h) = iframe h /\ fresh (removeOld h) = fresh h
  /\ consoleEl (removeOld h) = consoleEl h /\ editor (removeOld h) = editor h
  /\ timers (removeOld h) = timers h /\ loads (removeOld h) = loads h.
Proof.
  unfold removeOld. destruct (iframe h) as [i|] eqn:Ei; [|now rewrite Ei].
  destruct (parentNode h i); simpl; now rewrite ?Ei.
Qed.

Lemma createSandbox_wired (h : State) : wired h -> wired (createSandbox h).
Proof.
  intros W. pose proof (removeOld_body h W) as Hb.
  destruct (removeOld_same h) as (_ & Hf & _ & _ & _ & Hl).
  destruct W as (_ & _ & Hloads).
  unfold createSandbox, attachNew, wired. simpl. rewrite Hb, Hf, Hl.
  repeat split.
  - intros i [= <-]. lia.
  - intros i Hi. apply Hloads in Hi. lia.
Qed.

Lemma clearConsole_wired (h : State) : wired h -> wired (clearConsole h).
Proof. intros W. exact W. Qed.

Lemma send_same (h : State) :
  iframe (send h) = iframe h /\ body (send h) = body h
  /\ fresh (send h) = fresh h /\ consoleEl (send h) = consoleEl h
  /\ editor (send h) = editor h /\ timers (send h) = timers h
  /\ loads (send h) = loads h.
Proof.
  unfold send. destruct (iframe h) as [i|] eqn:Ei; [|now rewrite Ei].
  destruct (contentWindow h i); simpl; now rewrite ?Ei.
Qed.

Lemma send_wired (h : State) : wired h -> wired (send h).
Proof.
  destruct (send_same h) as (Hi & Hb & Hf & _ & _ & _ & Hl).
  unfold wired. now rewrite Hi, Hb, Hf, Hl.
Qed.

Lemma arm_wired (h : State) : wired h -> wired (arm h).
Proof.
  intros W. pose proof W as (Hb & Hi & Hl). unfold arm.
  destruct (iframe h) as [i|] eqn:Ei; [|exact W].
  assert (Hlt : i < fresh h) by now apply Hi.
  destruct (contentWindow h i); unfold wired; simpl; rewrite ?Ei;
    (repeat split; [assumption | assumption |
      intros j Hj; apply in_app_or in Hj; destruct Hj as [Hj | [<- | []]];
      [now apply Hl | assumption]]).
Qed.

Lemma run_wired (h : State) : wired h -> wired (run h).
Proof.
  intros W. unfold run.
  now apply arm_wired, createSandbox_wired, clearConsole_wired.
Qed.

(** The listener either leaves the page as it was or appends one line. *)
Lemma on_message_cases (data : Value) (h h' : State) :
  on_message data h = Ok h' ->
  h' = h \/ exists line, h' = appendChild line h.
Proof.
  unfold on_message, bind.
  destruct (negb (truthy data)); [intros [= <-]; now left|].
  destruct (get data "__fromSandbox") as [flag|]; [|discriminate].
  destruct (negb (truthy flag)); [intros [= <-]; now left|].
  destruct (get data "type") as [ty|]; [|discriminate].
  destruct (get data "args") as [a|]; [|discriminate].
  destruct (spread (js_or a (VArray []))) as [parts|]; [|discriminate].
  unfold printLine, bind.
  destruct (to_string (js_or ty (VString "log"))) as [k|]; [|discriminate].
  destruct (map_format parts) as [os|]; [|discriminate].
  intros [= <-]. right. eexists. reflexivity.
Qed.

Lemma on_message_same (data : Value) (h h' : State) :
  on_message data h = Ok h' ->
  iframe h' = iframe h /\ body h' = body h /\ fresh h' = fresh h
  /\ editor h' = editor h /\ timers h' = timers h /\ loads h' = loads h.
Proof.
  intros M. destruct (on_message_cases data h h' M) as [-> | (line & ->)];
    now repeat split.
Qed.

Lemma handle_same (data : Value) (h : State) :
  iframe (handle data h) = iframe h /\ body (handle data h) = body h
  /\ fresh (handle data h) = fresh h /\ editor (handle data h) = editor h
  /\ timers (handle data h) = timers h /\ loads (handle data h) = loads h.
Proof.
  unfold handle. destruct (on_message data h) as [h'|] eqn:E.
  - now apply on_message_same with (data := data).
  - now repeat split.
Qed.

Lemma handle_wired (data : Value) (h : State) : wired h -> wired (handle data h).
Proof.
  destruct (handle_same data h) as (Hi & Hb & Hf & _ & _ & Hl).
  unfold wired. now rewrite Hi, Hb, Hf, Hl.
Qed.

Lemma on_timer_wired (h : State) : wired h -> wired (on_timer h).
Proof.
  intros W. unfold on_timer. destruct (timers h); [assumption|].
  apply send_wired. exact W.
Qed.

Lemma on_load_wired (i : nat) (h : State) : wired h -> wired (on_load i h).
Proof.
  intros W. unfold on_load. destruct (mem i (loads h)); [|assumption].
  apply send_wired. destruct W as (Hb & Hi & Hl).
  unfold wired. simpl. repeat split; try assumption.
  intros j Hj. apply In_drop in Hj. now apply Hl.
Qed.

Lemma react_wired (h : State) (e : Event) : wired h -> wired (react h e).
Proof.
  intros W. destruct e; simpl.
  - now apply run_wired.
  - exact W.
  - now apply on_timer_wired.
  - now apply on_load_wired.
  - now apply handle_wired.
Qed.

Lemma init_wired : wired init.
Proof. unfold wired, init. simpl. repeat split; intros; try discriminate; contradiction. Qed.

Lemma fold_wired (es : list Event) (h : State) :
  wired h -> wired (fold_left react es h).
Proof.
  revert h. induction es as [|e es IH]; intros h W; simpl; [assumption|].
  apply IH, react_wired, W.
Qed.

Lemma after_wired (es : list Event) : wired (after es).
Proof. apply fold_wired, init_wired. Qed.

(** C9. After any sequence of host tasks at most one execution context is
    attached, and it is the current one.  Inside [createSandbox] the previous
    context is removed first ([removeOld] leaves none attached, and its
    [Removed] action precedes the [Attached] one), so that the new context is
    the only one attached when [createSandbox] returns. *)
Theorem at_most_one_context (es : list Event) :
  let h := after es in
  List.length (body h) <= 1
  /\ body h = match iframe h with Some i => [i] | None => [] end
  /\ body (removeOld h) = []
  /\ body (createSandbox h) = [fresh h]
  /\ iframe (createSandbox h) = Some (fresh h)
  /\ trace (createSandbox h) =
     (trace h ++ match iframe h with Some i => [Removed i] | None => [] end
              ++ [Attached (fresh h)])%list.
Proof.
  intros h. pose proof (after_wired es : wired h) as W.
  pose proof (removeOld_body h W) as Hr.
  pose proof (removeOld_trace h W) as Ht.
  destruct (removeOld_same h) as (_ & Hf & _).
  destruct W as (Hb & _).
  repeat split.
  - rewrite Hb. destruct (iframe h); simpl; lia.
  - exact Hb.
  - exact Hr.
  - unfold createSandbox, attachNew. simpl. now rewrite Hr, Hf.
  - unfold createSandbox, attachNew. simpl. now rewrite Hf.
  - unfold createSandbox, attachNew. simpl. rewrite Ht, Hf.
    now rewrite <- app_assoc.
Qed.

End Factory.

(** ** The dispatcher *)

Section Dispatcher.
Import Host.

Lemma posted_app (t u : list Action) :
  posted (t ++ u) = (posted t ++ posted u)%list.
Proof.
  induction t as [|a t IH]; simpl; [reflexivity|].
  destruct a; simpl; now rewrite IH.
Qed.

Lemma createSandbox_current (h : State) :
  iframe (createSandbox h) = Some (fresh h)
  /\ mem (fresh h) (body (createSandbox h)) = true
  /\ consoleEl (createSandbox h) = consoleEl h
  /\ editor (createSandbox h) = editor h
  /\ timers (createSandbox h) = timers h
  /\ loads (createSandbox h) = loads h
  /\ posted (trace (createSandbox h)) = posted (trace h)
  /\ exists mid, trace (createSandbox h) = (trace h ++ mid ++ [Attached (fresh h)])%list.
Proof.
  destruct (removeOld_same h) as (_ & Hf & Hc & He & Ht & Hl).
  unfold createSandbox, attachNew. simpl. rewrite Hf, Hc, He, Ht, Hl.
  repeat split.
  - apply mem_true_iff, in_or_app. right. now left.
  - rewrite posted_app, app_nil_r. unfold removeOld.
    destruct (iframe h) as [i|]; [|reflexivity].
    destruct (parentNode h i); [|reflexivity].
    simpl. now rewrite posted_app, app_nil_r.
  - unfold removeOld. destruct (iframe h) as [i|].
    + destruct (parentNode h i).
      * exists [Removed i]. simpl. now rewrite <- app_assoc.
      * now exists [].
    + now exists [].
Qed.

Lemma run_shape (h : State) :
  consoleEl (run h) = []
  /\ (exists rest,
        trace (run h) = (trace h ++ Cleared :: rest)%list
        /\ In (Attached (fresh h)) rest)
  /\ posted (trace (run h)) = posted (trace h).
Proof.
  destruct (createSandbox_current (clearConsole h))
    as (Hi & Hm & Hc & _ & _ & _ & Hp & (mid & Ht)).
  change (fresh (clearConsole h)) with (fresh h) in *.
  unfold run, arm. rewrite Hi.
  unfold contentWindow. rewrite Hm. cbn [consoleEl trace].
  repeat split.
  - now rewrite Hc.
  - exists (mid ++ [Attached (fresh h); TimerSet; LoadListened (fresh h)])%list.
    split.
    + rewrite Ht. cbn [clearConsole trace]. rewrite <- !app_assoc. reflexivity.
    + apply in_or_app. right. now left.
  - rewrite !posted_app, Hp. cbn [clearConsole trace].
    rewrite posted_app. simpl. now rewrite !app_nil_r.
Qed.

(** C7. A run starts by emptying the console: whatever lines the console
    held, none is left after [run]; in the trace of the run the clearing comes
    first, the new context is attached after it, and [run] itself posts no
    request. *)
Theorem run_clears_first (h : State) :
  consoleEl (clearConsole h) = []
  /\ consoleEl (run h) = []
  /\ (exists rest,
        trace (run h) = (trace h ++ Cleared :: rest)%list
        /\ In (Attached (fresh h)) rest)
  /\ posted (trace (run h)) = posted (trace h).
Proof. split; [reflexivity | apply run_shape]. Qed.

Lemma run_fields (h : State) :
  iframe (run h) = Some (fresh h)
  /\ mem (fresh h) (body (run h)) = true
  /\ editor (run h) = editor h
  /\ timers (run h) = S (timers h)
  /\ loads (run h) = (loads h ++ [fresh h])%list.
Proof.
  destruct (createSandbox_current (clearConsole h))
    as (Hi & Hm & _ & He & Ht & Hl & _).
  change (fresh (clearConsole h)) with (fresh h) in *.
  unfold run, arm. rewrite Hi. unfold contentWindow. rewrite Hm.
  cbn [iframe body editor timers loads]. rewrite ?Hi, ?Hm, ?He, ?Ht, ?Hl.
  now repeat split.
Qed.

Lemma send_posts (h : State) (i : nat) :
  iframe h = Some i -> mem i (body h) = true ->
  trace (send h) = (trace h ++ [Posted i (RunRequest (editor h))])%list.
Proof.
  intros Hi Hm. unfold send, contentWindow. now rewrite Hi, Hm.
Qed.

Lemma drop_absent (i : nat) (l : list nat) : ~ In i l -> drop i l = l.
Proof.
  intros H. unfold drop. induction l as [|j l IH]; simpl; [reflexivity|].
  destruct (Nat.eqb i j) eqn:E.
  - apply Nat.eqb_eq in E. subst. exfalso. apply H. now left.
  - simpl. f_equal. apply IH. intros Hin. apply H. now right.
Qed.

Lemma drop_last (i : nat) (l : list nat) :
  ~ In i l -> drop i (l ++ [i]) = l.
Proof.
  intros H. unfold drop. rewrite filter_app. simpl.
  rewrite Nat.eqb_refl. simpl. rewrite app_nil_r. now apply drop_absent.
Qed.

(** The two paths of [run], one at a time.  A run arms both and posts
    nothing itself; the timer, when it fires, posts one request to the new
    context, and so does the [load] listener, which is gone once it has
    fired. *)
Lemma request_posted_per_path (es : list Event) :
  let h := after es in
  let i := fresh h in
  let req := RunRequest (editor h) in
  timers (run h) = S (timers h)
  /\ loads (run h) = (loads h ++ [i])%list
  /\ posted (trace (run h)) = posted (trace h)
  /\ posted (trace (on_timer (run h))) = (posted (trace h) ++ [(i, req)])%list
  /\ posted (trace (on_load i (run h))) = (posted (trace h) ++ [(i, req)])%list
  /\ on_load i (on_load i (run h)) = on_load i (run h).
Proof.
  intros h i req.
  destruct (run_fields h) as (Hi & Hm & He & Ht & Hl).
  destruct (run_shape h) as (_ & _ & Hp).
  assert (Hni : ~ In i (loads h)).
  { intros Hin. pose proof (after_wired es) as (_ & _ & W).
    apply W in Hin. unfold i in Hin. fold h in Hin. lia. }
  assert (Hmi : mem i (loads (run h)) = true).
  { rewrite Hl. apply mem_true_iff, in_or_app. right. now left. }
  repeat split; try assumption.
  - unfold on_timer. rewrite Ht.
    rewrite send_posts with (i := i); [|exact Hi|exact Hm].
    cbn [trace editor]. rewrite posted_app, Hp, He. reflexivity.
  - unfold on_load. rewrite Hmi.
    rewrite send_posts with (i := i); [|exact Hi|exact Hm].
    cbn [trace editor]. rewrite posted_app, Hp, He. reflexivity.
  - unfold on_load at 1.
    assert (Hgone : mem i (loads (on_load i (run h))) = false).
    { unfold on_load. rewrite Hmi.
      destruct (send_same (mkState (iframe (run h)) (body (run h))
                  (fresh (run h)) (consoleEl (run h)) (editor (run h))
                  (timers (run h)) (drop i (loads (run h))) (trace (run h))))
        as (_ & _ & _ & _ & _ & _ & Hs).
      rewrite Hs. cbn [loads]. rewrite Hl, drop_last by exact Hni.
      destruct (mem i (loads h)) eqn:E; [|reflexivity].
      apply mem_true_iff in E. contradiction. }
    now rewrite Hgone.
Qed.

End Dispatcher.

(** ** The event renderer *)

Section Renderer.
Import Host.

(** Induction on values, through the elements of arrays and the property
    values of objects. *)
Lemma Value_induction (P : Value -> Prop) :
  P VUndefined -> P VNull -> (forall b, P (VBool b)) -> (forall z, P (VNum z)) ->
  P VNaN -> (forall n, P (VInfinity n)) -> (forall z, P (VBigInt z)) ->
  (forall s, P (VString s)) ->
  (forall l, Forall P l -> P (VArray l)) ->
  (forall ps, Forall (fun kv => P (snd kv)) ps -> P (VObject ps)) ->
  (forall n m st, P (VError n m st)) ->
  forall v, P v.
Proof.
  intros Hu Hn Hb Hz Hnan Hinf Hbig Hs Harr Hobj Herr.
  fix IH 1. intros v. destruct v as [| |b|z| |n|z|s|l|ps|n m st].
  - exact Hu.
  - exact Hn.
  - apply Hb.
  - apply Hz.
  - exact Hnan.
  - apply Hinf.
  - apply Hbig.
  - apply Hs.
  - apply Harr. induction l as [|x l IHl]; constructor; [apply IH | exact IHl].
  - apply Hobj. induction ps as [|[k x] ps IHps]; constructor;
      [apply IH | exact IHps].
  - apply Herr.
Qed.

(** [String] returns on every coercible value. *)
Lemma to_string_coercible (v : Value) :
  coercible v = true -> exists s, to_string v = Ok s.
Proof.
  induction v using Value_induction; intros C; simpl; try (eexists; reflexivity).
  - (* arrays *)
    simpl in C.
    assert (Hparts : exists parts,
      (fix elems (l : list Value) : Res (list string) :=
         match l with
         | [] => Ok []
         | x :: r =>
             s <- match x with
                  | VUndefined | VNull => Ok EmptyString
                  | _ => to_string x
                  end ;;
             rs <- elems r ;;
             Ok (s :: rs)
         end) l = Ok parts).
    { induction l as [|x l IHl]; [now exists []|].
      simpl in C. apply andb_true_iff in C as [Cx Cl].
      inversion H as [|? ? Hx Hl]; subst.
      destruct (IHl Hl Cl) as [rs Hrs].
      destruct (Hx Cx) as [s Hs].
      rewrite Hrs.
      destruct x; try (rewrite Hs); simpl; eexists; reflexivity. }
    destruct Hparts as [parts ->]. simpl. eexists; reflexivity.
  - (* plain objects *)
    simpl in C. apply negb_true_iff in C. rewrite C. eexists; reflexivity.
Qed.

(** It throws on every other value. *)
Lemma to_string_uncoercible (v : Value) :
  coercible v = false -> to_string v = Throw.
Proof.
  induction v using Value_induction; intros C; simpl in C; try discriminate.
  - (* arrays *)
    simpl.
    assert (Hparts :
      (fix elems (l : list Value) : Res (list string) :=
         match l with
         | [] => Ok []
         | x :: r =>
             s <- match x with
                  | VUndefined | VNull => Ok EmptyString
                  | _ => to_string x
                  end ;;
             rs <- elems r ;;
             Ok (s :: rs)
         end) l = Throw).
    { induction l as [|x l IHl]; [discriminate|].
      inversion H as [|? ? Hx Hl]; subst. simpl in C.
      destruct (coercible x) eqn:Cx.
      - simpl in C. rewrite (IHl Hl C).
        destruct (to_string_coercible x Cx) as [s Hs].
        destruct x; try (rewrite Hs); reflexivity.
      - rewrite (Hx eq_refl). destruct x; try discriminate; reflexivity. }
    now rewrite Hparts.
  - (* plain objects *)
    simpl. apply negb_false_iff in C. now rewrite C.
Qed.

(** The built-ins on a few values. *)
Example stringify_object :
  stringify (VObject [("a", VNum 1); ("b", VUndefined);
                      ("c", VArray [VUndefined; VString "x"; VNull; VBool true])])
  = Ok (Some ("{" ++ dquote ++ "a" ++ dquote ++ ":1," ++ dquote ++ "c" ++ dquote
              ++ ":[null," ++ dquote ++ "x" ++ dquote ++ ",null,true]}")).
Proof. reflexivity. Qed.

Example stringify_escapes :
  stringify (VString (String "010"%char "a" ++ dquote))
  = Ok (Some (dquote ++ backslash ++ "na" ++ backslash ++ dquote ++ dquote)).
Proof. reflexivity. Qed.

Example stringify_nested_bigint :
  stringify (VArray [VNum (-7); VObject [("n", VBigInt 1)]]) = Throw.
Proof. reflexivity. Qed.

Example to_string_array :
  to_string (VArray [VNum 1; VNull; VArray [VBigInt 3; VString "q"]; VObject []])
  = Ok "1,,3,q,[object Object]".
Proof. reflexivity. Qed.

Example format_fallback_array :
  format (VArray [VBigInt 10; VUndefined; VString "x"]) = Ok (Some "10,,x").
Proof. reflexivity. Qed.

(** [format] on a string, on a value that serializes, and on one that does
    not. *)
Lemma format_cases (v : Value) :
  (forall s, v = VString s -> format v = Ok (Some s))
  /\ (forall o, (forall s, v <> VString s) -> stringify v = Ok o ->
        format v = Ok o)
  /\ ((forall s, v <> VString s) -> stringify v = Throw ->
        format v = (s <- to_string v ;; Ok (Some s))).
Proof.
  repeat split.
  - now intros s ->.
  - intros o Hs E. destruct v; try (unfold format; now rewrite E).
    now destruct (Hs s).
  - intros Hs E. destruct v; try (unfold format; now rewrite E).
    now destruct (Hs s).
Qed.

Lemma format_coercible (v : Value) :
  coercible v = true -> exists o, format v = Ok o.
Proof.
  intros C. destruct (to_string_coercible v C) as [s Hs].
  destruct v; try (unfold format; destruct (stringify _); [eexists; reflexivity|];
                   rewrite Hs; eexists; reflexivity).
  eexists; reflexivity.
Qed.

Lemma map_format_coercible (parts : list Value) :
  forallb coercible parts = true -> exists os, map_format parts = Ok os.
Proof.
  induction parts as [|v r IH]; intros C; [now exists []|].
  simpl in C. apply andb_true_iff in C as [Cv Cr].
  destruct (format_coercible v Cv) as [o Ho]. destruct (IH Cr) as [os Hos].
  simpl. rewrite Ho, Hos. eexists; reflexivity.
Qed.

(** The message of a console call whose arguments are coercible is rendered
    as one line: the class carries the kind, the text is the formatted
    arguments in call order, a space between two of them. *)
Lemma render_call (k : Sandbox.Kind) (a : list Value) (h : State) :
  forallb coercible a = true ->
  exists os,
    map_format a = Ok os
    /\ on_message (Sandbox.wrap k a) h =
       Ok (appendChild (mkLine ("line " ++ Sandbox.kind_name k)
                               (join " " (map shown os))) h).
Proof.
  intros C. destruct (map_format_coercible a C) as [os Hos].
  exists os. split; [exact Hos|].
  unfold on_message, Sandbox.wrap, Sandbox.send. simpl.
  destruct k; simpl; unfold printLine; simpl; rewrite Hos; reflexivity.
Qed.

(** The three renderings the specification lists. *)
Lemma render_examples (h : State) :
  handle (Sandbox.wrap Sandbox.log [VString "Hello"; VString "World"]) h =
    appendChild (mkLine "line log" "Hello World") h
  /\ handle (Sandbox.wrap Sandbox.log [VNum 42]) h =
    appendChild (mkLine "line log" "42") h
  /\ handle (Sandbox.wrap Sandbox.log [VObject [("a", VNum 1)]]) h =
    appendChild (mkLine "line log" ("{" ++ dquote ++ "a" ++ dquote ++ ":1}")) h.
Proof. repeat split. Qed.

(** C6, as the code has it.  [format] returns a string as it is, otherwise
    the JSON serialization, and [String(v)] when the serialization throws.
    On every value on which [String] is defined, that is every coercible
    value, [format] does not throw; an event whose arguments are all
    coercible is rendered as exactly one line of its kind, the formatted
    arguments in call order with one space between two of them.  The three
    renderings that the specification lists follow. *)
Theorem format_renders :
  (forall s, format (VString s) = Ok (Some s))
  /\ (forall v o, (forall s, v <> VString s) -> stringify v = Ok o ->
        format v = Ok o)
  /\ (forall v, (forall s, v <> VString s) -> stringify v = Throw ->
        format v = (s <- to_string v ;; Ok (Some s)))
  /\ (forall v, coercible v = true -> exists o, format v = Ok o)
  /\ (forall k a h, forallb coercible a = true ->
        exists os,
          map_format a = Ok os
          /\ handle (Sandbox.wrap k a) h =
             appendChild (mkLine ("line " ++ Sandbox.kind_name k)
                                 (join " " (map shown os))) h)
  /\ (forall h,
        handle (Sandbox.wrap Sandbox.log [VString "Hello"; VString "World"]) h =
          appendChild (mkLine "line log" "Hello World") h
        /\ handle (Sandbox.wrap Sandbox.log [VNum 42]) h =
          appendChild (mkLine "line log" "42") h
        /\ handle (Sandbox.wrap Sandbox.log [VObject [("a", VNum 1)]]) h =
          appendChild
            (mkLine "line log" ("{" ++ dquote ++ "a" ++ dquote ++ ":1}")) h).
Proof.
  split; [reflexivity|].
  split; [intros v o; apply (format_cases v)|].
  split; [intros v; apply (format_cases v)|].
  split; [exact format_coercible|].
  split; [|exact render_examples].
  intros k a h C. destruct (render_call k a h C) as (os & Hos & M).
  exists os. split; [exact Hos|]. unfold handle. now rewrite M.
Qed.

Lemma format_renders_witness :
  format (VArray [VBigInt 10; VUndefined; VString "x"]) = Ok (Some "10,,x")
  /\ handle (Sandbox.wrap Sandbox.warn [VString "n ="; VBigInt 10; VUndefined]) init =
     appendChild (mkLine "line warn" "n = 10 ") init.
Proof.
  destruct format_renders as (_ & _ & F & _ & R & _).
  split.
  - rewrite (F (VArray [VBigInt 10; VUndefined; VString "x"]));
      [reflexivity | discriminate | reflexivity].
  - destruct (R Sandbox.warn [VString "n ="; VBigInt 10; VUndefined] init eq_refl)
      as (os & Hos & M).
    rewrite M. injection Hos as <-. reflexivity.
Defined.

(** C6 as stated fails on a value that neither serializes nor converts:
    [JSON.stringify] throws on the BigInt, [String] throws on the own
    [toString] property, so [format] throws out of its [catch] block;
    [printLine] is abandoned and the sibling argument is not rendered
    either. *)
Lemma format_fallback_throws :
  let v := VObject [("toString", VNum 0); ("n", VBigInt 1)] in
  stringify v = Throw
  /\ to_string v = Throw
  /\ format v = Throw
  /\ forall h,
       printLine (VString "log") [VString "a"; v] h = Throw
       /\ handle (Sandbox.wrap Sandbox.log [VString "a"; v]) h = h.
Proof. repeat split. Qed.

End Renderer.

(** ** The host end of the transport *)

Section Transport.
Import Host.

(** C3, as the code has it.  A message that is falsy, or whose
    [__fromSandbox] is missing or falsy, is dropped: the listener returns
    without an exception and the page is left as it was. *)
Theorem undiscriminated_dropped (data : Value) (h : State) :
  discriminated data = false ->
  on_message data h = Ok h /\ handle data h = h.
Proof.
  intros D. assert (E : on_message data h = Ok h).
  { unfold on_message, discriminated in *.
    destruct (truthy data) eqn:T; [|reflexivity]. simpl in *.
    destruct (get data "__fromSandbox") as [flag|] eqn:G.
    - simpl. now rewrite D.
    - destruct data; simpl in *; discriminate. }
  split; [exact E|]. unfold handle. now rewrite E.
Qed.

Lemma undiscriminated_dropped_witness :
  let data := VObject [("type", VString "log"); ("args", VArray [VString "x"])] in
  discriminated data = false
  /\ on_message data init = Ok init /\ handle data init = init.
Proof.
  split; [reflexivity|].
  apply (undiscriminated_dropped
           (VObject [("type", VString "log"); ("args", VArray [VString "x"])])
           init).
  reflexivity.
Defined.

(** C3 as stated fails on a message that carries the discriminator and whose
    [args] is no sequence: a string is spread into its characters and
    printed, a number makes the spread throw in the listener. *)
Lemma malformed_not_dropped :
  on_message (VObject [("__fromSandbox", VBool true); ("type", VString "log");
                       ("args", VString "ab")]) init
  = Ok (appendChild (mkLine "line log" "a b") init)
  /\ on_message (VObject [("__fromSandbox", VBool true); ("type", VString "log");
                          ("args", VNum 5)]) init
  = Throw.
Proof. split; reflexivity. Qed.

(** C10, as the code has it.  A message with the discriminator whose kind,
    [log] standing in for a missing or falsy one, converts to the string [k],
    and whose arguments, none standing in for a missing or falsy [args],
    format to [os], appends exactly the line of class [line k] whose text is
    [os] joined by spaces.  So a missing or falsy kind gives [line log],
    missing or falsy arguments give the empty text, and an argument without
    serialization counts as the empty string. *)
Theorem defaults_applied
    (data type args : Value) (k : string) (parts : list Value)
    (os : list (option string)) (h : State) :
  discriminated data = true ->
  get data "type" = Ok type ->
  get data "args" = Ok args ->
  to_string (js_or type (VString "log")) = Ok k ->
  spread (js_or args (VArray [])) = Ok parts ->
  map_format parts = Ok os ->
  on_message data h =
    Ok (appendChild (mkLine ("line " ++ k) (join " " (map shown os))) h)
  /\ consoleEl (handle data h) =
     (consoleEl h ++ [mkLine ("line " ++ k) (join " " (map shown os))])%list
  /\ (truthy type = false -> k = "log")
  /\ (truthy args = false -> join " " (map shown os) = EmptyString)
  /\ (forall v, stringify v = Ok None ->
        format v = Ok None /\ shown None = EmptyString).
Proof.
  intros D Ht Ha Hk Hp Hf.
  assert (E : on_message data h =
    Ok (appendChild (mkLine ("line " ++ k) (join " " (map shown os))) h)).
  { unfold on_message, discriminated in *.
    destruct (truthy data); [|discriminate]. simpl in *.
    destruct (get data "__fromSandbox") as [flag|]; [|discriminate].
    simpl. rewrite D. simpl. rewrite Ht, Ha. simpl. rewrite Hp. simpl.
    unfold printLine. rewrite Hk. simpl. now rewrite Hf. }
  split; [exact E|]. split; [unfold handle; now rewrite E|].
  split; [|split].
  - intros F. unfold js_or in Hk. rewrite F in Hk. simpl in Hk. now inversion Hk.
  - intros F. unfold js_or in Hp. rewrite F in Hp. simpl in Hp.
    inversion Hp; subst. simpl in Hf. now inversion Hf.
  - intros v Hv. split; [|reflexivity].
    destruct v; try (unfold format; now rewrite Hv). discriminate.
Qed.

Lemma defaults_applied_witness :
  let data := VObject [("__fromSandbox", VBool true)] in
  discriminated data = true
  /\ on_message data init =
       Ok (appendChild (mkLine "line log" EmptyString) init)
  /\ consoleEl (handle data init) = [mkLine "line log" EmptyString].
Proof.
  pose proof (defaults_applied (VObject [("__fromSandbox", VBool true)])
                VUndefined VUndefined "log" [] [] init
                eq_refl eq_refl eq_refl eq_refl eq_refl eq_refl)
    as (E & C & _).
  split; [reflexivity|]. split; [exact E | exact C].
Defined.

(** C10 as stated fails on a message with the discriminator, no [args], and
    a kind that has no string conversion: the template literal throws and no
    line is appended.  It fails as well on one with no kind and an [args]
    that cannot be spread: no line of kind [log] is rendered. *)
Lemma unprintable_kind_throws :
  let data := VObject [("__fromSandbox", VBool true);
                       ("type", VObject [("toString", VNum 0)])] in
  let data' := VObject [("__fromSandbox", VBool true); ("args", VNum 5)] in
  discriminated data = true
  /\ get data "args" = Ok VUndefined
  /\ on_message data init = Throw
  /\ consoleEl (handle data init) = []
  /\ discriminated data' = true
  /\ get data' "type" = Ok VUndefined
  /\ on_message data' init = Throw
  /\ consoleEl (handle data' init) = [].
Proof. repeat split. Qed.

End Transport.

(** ** The execution context *)

Section Context.
Import Sandbox.

(** The engine of the browser. *)
Variable E : Engine.






(** The listener on a well-formed request: the submitted text is executed,
    and what it leaves scheduled stays scheduled. *)
Lemma on_message_request (code : string) :
  let b := execute E code in
  on_message E (Host.RunRequest code) =
  match completion b with
  | None => mkOutcome (map post (sync b)) (later b) None (realm b)
  | Some err =>
      let (p, x) := caught E (realm b) err in
      mkOutcome (map post (sync b) ++ p) (later b) x (realm b)
  end.
Proof. reflexivity. Qed.



Lemma error_line (text : string) (h : Host.State) :
  Host.handle (send "error" [VString text]) h
  = Host.appendChild (Host.mkLine "line error" text) h.
Proof. reflexivity. Qed.





Lemma request_idle (code : string) :
  sync (execute E code) = [] ->
  completion (execute E code) = None ->
  later (execute E code) = [] ->
  pending (on_message E (Host.RunRequest code)) = []
  /\ receive E (Host.RunRequest code) = []
  /\ emitted E (Host.RunRequest code) = [].
Proof.
  intros S C L.
  assert (M : on_message E (Host.RunRequest code)
              = mkOutcome [] [] None (realm (execute E code))).
  { rewrite on_message_request. cbv zeta. now rewrite C, S, L. }
  unfold emitted, receive. now rewrite M.
Qed.

Lemma handle_grows (data : Value) (h : Host.State) :
  exists more,
    Host.consoleEl (Host.handle data h) = (Host.consoleEl h ++ more)%list.
Proof.
  unfold Host.handle. destruct (Host.on_message data h) as [h'|] eqn:M;
    [|exists []; now rewrite app_nil_r].
  destruct (on_message_cases data h h' M) as [-> | (line & ->)].
  - exists []. now rewrite app_nil_r.
  - now exists [line].
Qed.







End Context.

(** ** Supersession *)

Section Supersession.
Import Host Loop.

Variable E : Sandbox.Engine.

Lemma on_timer_same (h : State) :
  iframe (on_timer h) = iframe h /\ consoleEl (on_timer h) = consoleEl h.
Proof.
  unfold on_timer. destruct (timers h) as [|n]; [now split|].
  match goal with |- context [send ?x] =>
    destruct (send_same x) as (Hi & _ & _ & Hc & _) end.
  now rewrite Hi, Hc.
Qed.

Lemma on_load_same (i : nat) (h : State) :
  iframe (on_load i h) = iframe h /\ consoleEl (on_load i h) = consoleEl h.
Proof.
  unfold on_load. destruct (mem i (loads h)); [|now split].
  match goal with |- context [send ?x] =>
    destruct (send_same x) as (Hi & _ & _ & Hc & _) end.
  now rewrite Hi, Hc.
Qed.

Lemma attached_is_current (h : State) (i : nat) :
  wired h -> mem i (body h) = true -> iframe h = Some i.
Proof.
  intros (Hb & _) M. apply mem_true_iff in M. rewrite Hb in M.
  destruct (iframe h) as [j|]; [|contradiction].
  destruct M as [-> | []]. reflexivity.
Qed.

Lemma Forall_tag (P : nat * Value -> Prop) (i : nat) (l : list Value) :
  (forall d, P (i, d)) -> Forall P (tag i l).
Proof.
  intros H. unfold tag. induction l as [|d l IH]; simpl; constructor;
    [apply H | exact IH].
Qed.

Lemma Forall_repeat (P : nat -> Prop) (i n : nat) : P i -> Forall P (repeat i n).
Proof. intros H. induction n; simpl; constructor; assumption. Qed.

Lemma step_settled (s s' : Sys) (e : Loop.Event) :
  settled s -> step E s e = Some s' -> quiet E s [e] = true -> settled s'.
Proof.
  intros (W & Hlen & Hq & Ho) St Q. destruct e; simpl in St, Q.
  - (* Run *)
    injection St as <-. destruct (queue s) eqn:Eq; [|discriminate].
    unfold settled. cbn [host origins queue].
    destruct (run_shape (host s)) as (C & _).
    repeat split; try (apply run_wired, W); try constructor.
    now rewrite C.
  - (* Input *)
    injection St as <-. unfold settled. cbn [host origins queue].
    repeat split; try apply W; assumption.
  - (* Timer *)
    destruct (timers (host s)) eqn:T; [discriminate|]. injection St as <-.
    destruct (on_timer_same (host s)) as (Hi & Hc).
    unfold settled. cbn [host origins queue]. rewrite Hi, Hc.
    split; [now apply on_timer_wired|]. now repeat split.
  - (* Load *)
    destruct (mem i (body (host s)) && negb (mem i (loaded s))); [|discriminate].
    injection St as <-.
    destruct (on_load_same i (host s)) as (Hi & Hc).
    unfold settled. cbn [host origins queue]. rewrite Hi, Hc.
    split; [now apply on_load_wired|]. now repeat split.
  - (* Receive *)
    destruct (inbox s) as [|[i d] r]; [discriminate|].
    destruct (mem i (body (host s))) eqn:M; injection St as <-;
      unfold settled; cbn [host origins queue]; repeat split;
      try apply W; try assumption.
    apply Forall_app. split; [assumption|].
    apply Forall_tag. intros d'. simpl. now apply attached_is_current.
  - (* Fire *)
    destruct (mem i (body (host s))) eqn:M; [|discriminate].
    destruct (next i (scheduled s)) as [[a r]|]; [|discriminate].
    injection St as <-.
    unfold settled; cbn [host origins queue]; repeat split;
      try apply W; try assumption.
    apply Forall_app. split; [assumption|].
    apply Forall_tag. intros d'. simpl. now apply attached_is_current.
  - (* Deliver *)
    destruct (queue s) as [|[i d] r] eqn:Eq; [discriminate|].
    injection St as <-.
    destruct (handle_same d (host s)) as (Hi & _).
    destruct (handle_grows d (host s)) as [more Hm].
    inversion Hq as [|? ? Hhead Htail]; subst. simpl in Hhead.
    unfold settled. cbn [host origins queue]. rewrite Hi, Hm.
    split; [now apply handle_wired|].
    rewrite !length_app, repeat_length.
    split; [lia|]. split; [assumption|].
    apply Forall_app. split; [assumption|]. now apply Forall_repeat.
Qed.

Lemma steps_settled (es : list Loop.Event) (s s' : Sys) :
  settled s -> steps E s es = Some s' -> quiet E s es = true -> settled s'.
Proof.
  revert s. induction es as [|e es IH]; intros s J St Q.
  - simpl in St. now injection St as <-.
  - simpl in St, Q. destruct (step E s e) as [s1|] eqn:E1; [|discriminate].
    apply andb_true_iff in Q as [Q1 Q2].
    apply (IH s1); [|assumption|assumption].
    apply (step_settled s s1 e J E1). simpl. rewrite Q1, E1.
    now destruct e.
Qed.

Lemma init_settled : settled Loop.init.
Proof.
  unfold settled. simpl. repeat split; try constructor; try apply init_wired.
Qed.

(** C1, as the code has it.  The listener does not look at the source of a
    message: what keeps the output of a superseded context from the console is
    that the context is detached, and a detached context posts nothing.  So
    when every run starts while no message to the host is waiting, every line
    of the console comes from the current context. *)
Theorem no_leak_when_quiet (es : list Loop.Event) (s : Sys) :
  steps E Loop.init es = Some s ->
  quiet E Loop.init es = true ->
  List.length (origins s) = List.length (consoleEl (host s))
  /\ Forall (fun i => iframe (host s) = Some i) (origins s).
Proof.
  intros St Q.
  destruct (steps_settled es Loop.init s init_settled St Q)
    as (_ & L & _ & O).
  now split.
Qed.

End Supersession.

(** ** One run on the loop *)

Section Runs.
Import Host Loop.

Variable E : Sandbox.Engine.

Lemma fresh_run (h : State) : fresh (run h) = S (fresh h).
Proof.
  destruct (createSandbox_current (clearConsole h)) as (Hi & Hm & _).
  change (fresh (clearConsole h)) with (fresh h) in *.
  unfold run, arm. rewrite Hi. unfold contentWindow. rewrite Hm.
  cbn [fresh]. unfold createSandbox, attachNew. cbn [fresh].
  destruct (removeOld_same (clearConsole h)) as (_ & -> & _). reflexivity.
Qed.

Lemma routed_app (ld : list nat) (h h' : State) (x : list (nat * Value)) :
  posted (trace h') = (posted (trace h) ++ x)%list ->
  routed ld h h' = filter (fun m => mem (fst m) ld) x.
Proof.
  intros H. unfold routed. rewrite H, skipn_app, skipn_all, Nat.sub_diag.
  reflexivity.
Qed.

(** What [send] posts: at most the request for the current text, to the
    current iframe. *)
Lemma send_posted (h : State) :
  exists x,
    posted (trace (send h)) = (posted (trace h) ++ x)%list
    /\ Forall (fun m => iframe h = Some (fst m)
                        /\ snd m = RunRequest (editor h)) x
    /\ (forall i, iframe h = Some i -> mem i (body h) = true ->
                  x = [(i, RunRequest (editor h))]).
Proof.
  unfold send, contentWindow. destruct (iframe h) as [i|] eqn:Ei.
  - destruct (mem i (body h)) eqn:M.
    + exists [(i, RunRequest (editor h))]. cbn [trace].
      rewrite posted_app. split; [reflexivity|]. split.
      * constructor; [now split | constructor].
      * intros j [= <-] _. reflexivity.
    + exists []. rewrite app_nil_r. split; [reflexivity|]. split; [constructor|].
      intros j [= <-] M'. congruence.
  - exists []. rewrite app_nil_r. split; [reflexivity|]. split; [constructor|].
    discriminate.
Qed.

Lemma on_timer_posted (h : State) :
  exists x,
    posted (trace (on_timer h)) = (posted (trace h) ++ x)%list
    /\ Forall (fun m => iframe h = Some (fst m)
                        /\ snd m = RunRequest (editor h)) x
    /\ (forall i n, timers h = S n -> iframe h = Some i ->
                    mem i (body h) = true ->
                    x = [(i, RunRequest (editor h))]).
Proof.
  unfold on_timer. destruct (timers h) as [|n] eqn:T.
  - exists []. rewrite app_nil_r. split; [reflexivity|]. split; [constructor|].
    discriminate.
  - destruct (send_posted (mkState (iframe h) (body h) (fresh h) (consoleEl h)
                                   (editor h) n (loads h) (trace h)))
      as (x & P & F & O).
    exists x. split; [exact P|]. split; [exact F|].
    intros i m _ Hi Hm. now apply O.
Qed.

Lemma on_load_posted (j : nat) (h : State) :
  exists x,
    posted (trace (on_load j h)) = (posted (trace h) ++ x)%list
    /\ Forall (fun m => iframe h = Some (fst m)
                        /\ snd m = RunRequest (editor h)) x
    /\ (forall i, mem j (loads h) = true -> iframe h = Some i ->
                  mem i (body h) = true ->
                  x = [(i, RunRequest (editor h))]).
Proof.
  unfold on_load. destruct (mem j (loads h)) eqn:L.
  - destruct (send_posted (mkState (iframe h) (body h) (fresh h) (consoleEl h)
                                   (editor h) (timers h) (drop j (loads h))
                                   (trace h)))
      as (x & P & F & O).
    exists x. split; [exact P|]. split; [exact F|].
    intros i _ Hi Hm. now apply O.
  - exists []. rewrite app_nil_r. split; [reflexivity|]. split; [constructor|].
    discriminate.
Qed.

Lemma on_timer_keeps (h : State) :
  iframe (on_timer h) = iframe h /\ body (on_timer h) = body h
  /\ fresh (on_timer h) = fresh h /\ consoleEl (on_timer h) = consoleEl h
  /\ editor (on_timer h) = editor h /\ loads (on_timer h) = loads h.
Proof.
  unfold on_timer. destruct (timers h) as [|n]; [now repeat split|].
  match goal with |- context [send ?x] =>
    destruct (send_same x) as (Hi & Hb & Hf & Hc & He & _ & Hl) end.
  rewrite Hi, Hb, Hf, Hc, He, Hl. now repeat split.
Qed.

Lemma on_load_keeps (j : nat) (h : State) :
  iframe (on_load j h) = iframe h /\ body (on_load j h) = body h
  /\ fresh (on_load j h) = fresh h /\ consoleEl (on_load j h) = consoleEl h
  /\ editor (on_load j h) = editor h /\ timers (on_load j h) = timers h.
Proof.
  unfold on_load. destruct (mem j (loads h)); [|now repeat split].
  match goal with |- context [send ?x] =>
    destruct (send_same x) as (Hi & Hb & Hf & Hc & He & Ht & _) end.
  rewrite Hi, Hb, Hf, Hc, He, Ht. now repeat split.
Qed.

Lemma wired_current (h : State) (i : nat) :
  wired h -> iframe h = Some i -> body h = [i] /\ mem i (body h) = true.
Proof.
  intros (B & _) Hi. rewrite Hi in B. rewrite B. split; [reflexivity|].
  unfold mem. simpl. now rewrite Nat.eqb_refl.
Qed.

Lemma Forall_weaken {A : Type} (f : A -> nat) (n m : nat) (l : list A) :
  n <= m -> Forall (fun x => f x < n) l -> Forall (fun x => f x < m) l.
Proof.
  intros L F. eapply Forall_impl; [|exact F]. intros a H. simpl in H. lia.
Qed.

Lemma next_keeps (P : nat * Sandbox.Async -> Prop) (i : nat)
    (l r : list (nat * Sandbox.Async)) (a : Sandbox.Async) :
  next i l = Some (a, r) -> Forall P l -> Forall P r.
Proof.
  revert r. induction l as [|[j b] l IH]; intros r N F; [discriminate|].
  simpl in N. apply Forall_cons_iff in F as [Fh Ft].
  destruct (Nat.eqb i j).
  - now injection N as <- <-.
  - destruct (next i l) as [[b' r']|]; [|discriminate].
    injection N as <- <-. constructor; [exact Fh|]. now apply IH.
Qed.


Lemma next_none (i : nat) (l : list (nat * Sandbox.Async)) :
  due i l = [] -> next i l = None.
Proof.
  unfold due. induction l as [|[j b] l IH]; [reflexivity|].
  cbn [filter fst next]. destruct (Nat.eqb i j); [discriminate|].
  intros D. now rewrite (IH D).
Qed.

Lemma due_older (i : nat) (l : list (nat * Sandbox.Async)) :
  Forall (fun m => fst m < i) l -> due i l = [].
Proof.
  unfold due. induction 1 as [|[j b] l H F IH]; [reflexivity|].
  cbn [filter fst] in *. destruct (Nat.eqb_spec i j); [lia | exact IH].
Qed.




(** Every state of the loop is bounded. *)
Lemma step_bounded (s s' : Sys) (e : Loop.Event) :
  bounded s -> step E s e = Some s' -> bounded s'.
Proof.
  intros (W & Bi & Bs & Bl) St. destruct e; simpl in St.
  - (* Run *)
    injection St as <-. unfold bounded. cbn [host inbox scheduled loaded].
    destruct (run_shape (host s)) as (_ & _ & P).
    rewrite (routed_app _ _ _ [] (eq_trans P (eq_sym (app_nil_r _)))).
    cbn [filter]. rewrite app_nil_r, fresh_run.
    split; [now apply run_wired|].
    repeat split; eapply Forall_weaken; try eassumption; lia.
  - (* Input *)
    injection St as <-. exact (conj W (conj Bi (conj Bs Bl))).
  - (* Timer *)
    destruct (timers (host s)) eqn:T; [discriminate|]. injection St as <-.
    destruct (on_timer_keeps (host s)) as (Hi & _ & Hf & _).
    destruct (on_timer_posted (host s)) as (x & P & F & _).
    unfold bounded. cbn [host inbox scheduled loaded].
    rewrite (routed_app _ _ _ x P), Hf.
    split; [now apply on_timer_wired|]. repeat split; try assumption.
    apply Forall_app. split; [assumption|].
    apply Forall_forall. intros m Hm. apply filter_In in Hm as [Hm _].
    rewrite Forall_forall in F. destruct (F m Hm) as [Fi _].
    destruct W as (_ & Wi & _). now apply Wi.
  - (* Load *)
    destruct (mem i (body (host s)) && negb (mem i (loaded s))) eqn:C;
      [|discriminate].
    injection St as <-. apply andb_true_iff in C as [Cb _].
    destruct (on_load_keeps i (host s)) as (Hi & _ & Hf & _).
    destruct (on_load_posted i (host s)) as (x & P & F & _).
    unfold bounded. cbn [host inbox scheduled loaded].
    rewrite (routed_app _ _ _ x P), Hf.
    split; [now apply on_load_wired|]. repeat split; try assumption.
    + apply Forall_app. split; [assumption|].
      apply Forall_forall. intros m Hm. apply filter_In in Hm as [Hm _].
      rewrite Forall_forall in F. destruct (F m Hm) as [Fi _].
      destruct W as (_ & Wi & _). now apply Wi.
    + constructor; [|assumption].
      pose proof (attached_is_current (host s) i W Cb) as Ci.
      destruct W as (_ & Wi & _). now apply Wi.
  - (* Receive *)
    destruct (inbox s) as [|[i d] r]; [discriminate|].
    apply Forall_cons_iff in Bi as [Bh Bt]. cbn [fst] in Bh.
    destruct (mem i (body (host s))); injection St as <-;
      [|exact (conj W (conj Bt (conj Bs Bl)))].
    split; [exact W|]. split; [exact Bt|]. split; [|exact Bl].
    cbn [host scheduled]. apply Forall_app. split; [assumption|].
    apply Forall_forall. intros m Hm. apply in_map_iff in Hm as (a & <- & _).
    exact Bh.
  - (* Fire *)
    destruct (mem i (body (host s))); [|discriminate].
    destruct (next i (scheduled s)) as [[a r]|] eqn:N; [|discriminate].
    injection St as <-.
    split; [exact W|]. split; [exact Bi|]. split; [|exact Bl].
    cbn [host scheduled]. now apply (next_keeps _ i _ _ a N).
  - (* Deliver *)
    destruct (queue s) as [|[i d] r]; [discriminate|]. injection St as <-.
    destruct (handle_same d (host s)) as (_ & _ & Hf & _).
    unfold bounded. cbn [host inbox scheduled loaded]. rewrite Hf.
    split; [now apply handle_wired|]. now repeat split.
Qed.

Lemma steps_bounded (es : list Loop.Event) (s s' : Sys) :
  bounded s -> steps E s es = Some s' -> bounded s'.
Proof.
  revert s. induction es as [|e es IH]; intros s B St.
  - simpl in St. now injection St as <-.
  - simpl in St. destruct (step E s e) as [s1|] eqn:E1; [|discriminate].
    apply (IH s1); [|assumption]. now apply (step_bounded s s1 e).
Qed.

Lemma init_bounded : bounded Loop.init.
Proof.
  unfold bounded. simpl. repeat split; try constructor; try apply init_wired.
Qed.

Lemma reachable_bounded (es : list Loop.Event) (s : Sys) :
  steps E Loop.init es = Some s -> bounded s.
Proof. apply steps_bounded, init_bounded. Qed.



(** The page after [run], from a state of the loop. *)
Lemma after_run (s0 : Sys) :
  bounded s0 ->
  let i := fresh (host s0) in
  step E s0 Loop.Run
  = Some (mkSys (run (host s0)) (loaded s0) (inbox s0) (scheduled s0)
                (queue s0) [])
  /\ iframe (run (host s0)) = Some i
  /\ wired (run (host s0))
  /\ consoleEl (run (host s0)) = []
  /\ editor (run (host s0)) = editor (host s0)
  /\ mem i (loads (run (host s0))) = true
  /\ mem i (loaded s0) = false
  /\ Forall (fun m => fst m < i) (inbox s0)
  /\ Forall (fun m => fst m < i) (scheduled s0).
Proof.
  intros (W & Bi & Bs & Bl) i.
  destruct (run_fields (host s0)) as (Hi & Hm & He & Ht & Hl).
  destruct (run_shape (host s0)) as (Hc & _ & P).
  split.
  - cbn [step]. rewrite (routed_app _ _ _ [] (eq_trans P (eq_sym (app_nil_r _)))).
    cbn [filter]. now rewrite app_nil_r.
  - split; [exact Hi|]. split; [now apply run_wired|]. split; [exact Hc|].
    split; [exact He|]. split.
    + rewrite Hl. apply mem_true_iff, in_or_app. right. now left.
    + split; [|now split].
      destruct (mem i (loaded s0)) eqn:M; [|reflexivity].
      apply mem_true_iff in M. rewrite Forall_forall in Bl.
      apply Bl in M. unfold i in M. lia.
Qed.




Lemma step_idle (i : nat) (s s' : Sys) (e : Loop.Event) :
  Sandbox.sync (Sandbox.execute E EmptyString) = [] ->
  Sandbox.completion (Sandbox.execute E EmptyString) = None ->
  Sandbox.later (Sandbox.execute E EmptyString) = [] ->
  idle i s -> hands_off e = true -> step E s e = Some s' -> idle i s'.
Proof.
  intros XS XC XL (Hi & W & He & Hc & Q & Fi & Fs) O St.
  destruct (request_idle E EmptyString XS XC XL) as (Pn & Rc & _).
  destruct (wired_current (host s) i W Hi) as (Hb & Hm).
  assert (Sent : forall x : list (nat * Value),
            Forall (fun m => iframe (host s) = Some (fst m)
                             /\ snd m = RunRequest (editor (host s))) x ->
            forall ld,
            Forall (fun m => fst m < i \/ m = (i, RunRequest EmptyString))
                   (filter (fun m => mem (fst m) ld) x)).
  { intros x F ld. apply Forall_forall. intros [j d] Hj.
    apply filter_In in Hj as [Hj _]. rewrite Forall_forall in F.
    destruct (F _ Hj) as [Fj Fd]. cbn [fst snd] in *.
    rewrite Hi in Fj. injection Fj as <-. rewrite He in Fd. subst d.
    now right. }
  destruct e; try discriminate O; simpl in St.
  - (* Timer *)
    destruct (timers (host s)) eqn:T; [discriminate|]. injection St as <-.
    destruct (on_timer_keeps (host s)) as (Ti & _ & _ & Tc & Te & _).
    destruct (on_timer_posted (host s)) as (x & P & F & _).
    unfold idle. cbn [host inbox queue scheduled].
    rewrite Ti, Tc, Te, (routed_app _ _ _ x P).
    split; [exact Hi|]. split; [now apply on_timer_wired|].
    split; [exact He|]. split; [exact Hc|]. split; [exact Q|].
    split; [|exact Fs]. apply Forall_app. split; [exact Fi|]. now apply Sent.
  - (* Load *)
    destruct (mem i0 (body (host s)) && negb (mem i0 (loaded s))); [|discriminate].
    injection St as <-.
    destruct (on_load_keeps i0 (host s)) as (Ti & _ & _ & Tc & Te & _).
    destruct (on_load_posted i0 (host s)) as (x & P & F & _).
    unfold idle. cbn [host inbox queue scheduled].
    rewrite Ti, Tc, Te, (routed_app _ _ _ x P).
    split; [exact Hi|]. split; [now apply on_load_wired|].
    split; [exact He|]. split; [exact Hc|]. split; [exact Q|].
    split; [|exact Fs]. apply Forall_app. split; [exact Fi|]. now apply Sent.
  - (* Receive *)
    destruct (inbox s) as [|[j d] r]; [discriminate|].
    apply Forall_cons_iff in Fi as [Fh Ft].
    destruct (mem j (body (host s))) eqn:M; injection St as <-;
      [|exact (conj Hi (conj W (conj He (conj Hc (conj Q (conj Ft Fs))))))].
    pose proof (attached_is_current (host s) j W M) as Cj.
    rewrite Hi in Cj. injection Cj as <-.
    destruct Fh as [Fh | Fh]; [cbn [fst] in Fh; lia|]. injection Fh as ->.
    unfold idle. cbn [host inbox queue scheduled].
    rewrite Pn, Rc, Q. cbn [map tag app]. rewrite app_nil_r.
    exact (conj Hi (conj W (conj He (conj Hc (conj eq_refl (conj Ft Fs)))))).
  - (* Fire *)
    destruct (mem i0 (body (host s))) eqn:M; [|discriminate].
    pose proof (attached_is_current (host s) i0 W M) as Ci.
    rewrite Hi in Ci. injection Ci as <-.
    rewrite (next_none i _ (due_older i _ Fs)) in St. discriminate.
  - (* Deliver *)
    rewrite Q in St. discriminate.
Qed.

Lemma steps_idle (i : nat) (es : list Loop.Event) (s s' : Sys) :
  Sandbox.sync (Sandbox.execute E EmptyString) = [] ->
  Sandbox.completion (Sandbox.execute E EmptyString) = None ->
  Sandbox.later (Sandbox.execute E EmptyString) = [] ->
  idle i s -> forallb hands_off es = true ->
  steps E s es = Some s' -> idle i s'.
Proof.
  intros XS XC XL. revert s. induction es as [|e es IH]; intros s J O St.
  - simpl in St. now injection St as <-.
  - simpl in St, O. apply andb_true_iff in O as [O1 O2].
    destruct (step E s e) as [s1|] eqn:E1; [|discriminate].
    apply (IH s1); [|assumption|assumption].
    now apply (step_idle i s s1 e).
Qed.


(** Both paths at work.  On every page the timer and the [load] listener
    that one run has armed post the request to the new iframe once each,
    whichever fires first: nothing that one of them does keeps the other from
    posting. *)
Lemma both_paths_post (h : State) :
  wired h ->
  let i := fresh h in
  let req := RunRequest (editor h) in
  posted (trace (on_load i (on_timer (run h))))
  = (posted (trace h) ++ [(i, req); (i, req)])%list
  /\ posted (trace (on_timer (on_load i (run h))))
     = (posted (trace h) ++ [(i, req); (i, req)])%list.
Proof.
  intros W i req.
  destruct (run_fields h) as (Hi & Hm & He & Ht & Hl).
  destruct (run_shape h) as (_ & _ & Hp).
  fold i in Hi, Hm, Hl.
  assert (Hli : mem i (loads (run h)) = true).
  { rewrite Hl. apply mem_true_iff, in_or_app. right. now left. }
  split.
  - destruct (on_timer_keeps (run h)) as (Ti & Tb & _ & _ & Te & Tl).
    destruct (on_timer_posted (run h)) as (x & P & _ & X).
    specialize (X i _ Ht Hi Hm). subst x.
    destruct (on_load_posted i (on_timer (run h))) as (x & P' & _ & X).
    rewrite Tl, Ti, Tb in X. specialize (X i Hli Hi Hm). subst x.
    rewrite P', P, Hp, Te, He, <- app_assoc. reflexivity.
  - destruct (on_load_keeps i (run h)) as (Li & Lb & _ & _ & Le & Lt).
    destruct (on_load_posted i (run h)) as (x & P & _ & X).
    specialize (X i Hli Hi Hm). subst x.
    destruct (on_timer_posted (on_load i (run h))) as (x & P' & _ & X).
    rewrite Lt, Li, Lb in X. specialize (X i _ Ht Hi Hm). subst x.
    rewrite P', P, Hp, Le, He, <- app_assoc. reflexivity.
Qed.



(** C8, as the code has it.  The empty text is a function that does
    nothing.  When it is run while no message waits for the host, the console,
    emptied by [run], stays empty and no message sets out for it, whatever
    happens next, as long as nobody starts another run or edits the text: the
    timer and the [load] listener may both fire, requests may be received,
    and the contexts of earlier runs are gone. *)
Theorem empty_code_no_lines (es0 es : list Loop.Event) (s0 s : Sys) :
  Sandbox.sync (Sandbox.execute E EmptyString) = [] ->
  Sandbox.completion (Sandbox.execute E EmptyString) = None ->
  Sandbox.later (Sandbox.execute E EmptyString) = [] ->
  steps E Loop.init es0 = Some s0 ->
  queue s0 = [] ->
  editor (host s0) = EmptyString ->
  forallb hands_off es = true ->
  steps E s0 (Loop.Run :: es) = Some s ->
  consoleEl (host s) = []
  /\ queue s = []
  /\ Sandbox.emitted E (RunRequest EmptyString) = [].
Proof.
  intros XS XC XL R Q0 He O St.
  pose proof (reachable_bounded es0 s0 R) as B.
  destruct (after_run s0 B) as (S1 & Hi & W & Hc & He1 & _ & _ & Fi & Fs).
  change (steps E s0 (Loop.Run :: es))
    with (match step E s0 Loop.Run with
          | Some s' => steps E s' es
          | None => None
          end) in St.
  rewrite S1 in St.
  match type of St with steps E ?s1 es = _ =>
    assert (J : idle (fresh (host s0)) s1) end.
  { unfold idle. cbn [host inbox queue scheduled].
    split; [exact Hi|]. split; [exact W|]. split; [now rewrite He1|].
    split; [exact Hc|]. split; [exact Q0|]. split; [|exact Fs].
    eapply Forall_impl; [|exact Fi]. intros m Hm. now left. }
  destruct (steps_idle _ es _ s XS XC XL J O St) as (_ & _ & _ & Cs & Qs & _).
  destruct (request_idle E EmptyString XS XC XL) as (_ & _ & Em).
  now repeat split.
Qed.

End Runs.
(** ** Races on the loaded page *)

Section Races.
Import Host Loop.

Lemma no_leak_when_quiet_witness :
  let es := [Loop.Input Sample.ticker;
             Loop.Run; Loop.Load 0; Loop.Receive; Loop.Deliver;
             Loop.Fire 0; Loop.Deliver;
             Loop.Run; Loop.Load 1; Loop.Receive; Loop.Deliver] in
  exists s,
    steps Sample.engine Loop.init es = Some s
    /\ quiet Sample.engine Loop.init es = true
    /\ consoleEl (host s) = [mkLine "line log" "tick"]
    /\ List.length (origins s) = List.length (consoleEl (host s))
    /\ Forall (fun i => iframe (host s) = Some i) (origins s).
Proof.
  intros es. eexists. split; [vm_compute; reflexivity|].
  split; [vm_compute; reflexivity|]. split; [reflexivity|].
  apply (no_leak_when_quiet Sample.engine es); vm_compute; reflexivity.
Defined.

(** C1 as stated fails when a message of the old context is under way while
    the next run starts.  Context 0 logs [tick] and, from a timer, [tock];
    the second run starts after [tock] has been posted and before it is
    dispatched: the console, cleared by that run, then shows [tock], a line
    of context 0, while context 1 is the current one. *)
Lemma stale_output_leaks :
  exists s,
    steps Sample.engine Loop.init
      [Loop.Input Sample.ticker;
       Loop.Run; Loop.Load 0; Loop.Receive; Loop.Deliver;
       Loop.Fire 0; Loop.Run; Loop.Deliver] = Some s
    /\ iframe (host s) = Some 1
    /\ consoleEl (host s) = [mkLine "line log" "tock"]
    /\ origins s = [0].
Proof. eexists. split; [vm_compute; reflexivity|]. repeat split. Qed.

(** C2 on the page as loaded.  The user types the greeting and runs it
    once; the timer fires and the document of the iframe loads.  The request
    has then been posted to iframe 0 twice; and when the document has loaded
    before the timer fires, both requests reach the sandbox script, the
    submitted code runs twice and the console shows its line twice. *)
Theorem request_posted_twice :
  posted (trace (Host.after [Host.Input Sample.greeter; Host.Run; Host.Timer; Host.Load 0]))
  = [(0, RunRequest Sample.greeter); (0, RunRequest Sample.greeter)]
  /\ posted (trace (Host.after [Host.Input Sample.greeter; Host.Run; Host.Load 0; Host.Timer]))
     = [(0, RunRequest Sample.greeter); (0, RunRequest Sample.greeter)]
  /\ exists s,
       steps Sample.engine Loop.init
         [Loop.Input Sample.greeter;
          Loop.Run; Loop.Load 0; Loop.Timer;
          Loop.Receive; Loop.Receive; Loop.Deliver; Loop.Deliver] = Some s
       /\ posted (trace (host s))
          = [(0, RunRequest Sample.greeter); (0, RunRequest Sample.greeter)]
       /\ consoleEl (host s)
          = [mkLine "line log" "Hello World"; mkLine "line log" "Hello World"].
Proof.
  split; [reflexivity|]. split; [reflexivity|].
  eexists. split; [vm_compute; reflexivity|]. now split.
Qed.

(** A run of the greeting and a run of the two number lines, from the edit to
    the console: one line per call, in call order. *)
Lemma sample_runs_rendered :
  (exists s,
     steps Sample.engine Loop.init
       [Loop.Input Sample.greeter; Loop.Run; Loop.Load 0; Loop.Receive;
        Loop.Deliver] = Some s
     /\ consoleEl (host s) = [mkLine "line log" "Hello World"])
  /\ (exists s,
        steps Sample.engine Loop.init
          [Loop.Input Sample.counter; Loop.Run; Loop.Load 0; Loop.Receive;
           Loop.Deliver; Loop.Deliver] = Some s
        /\ consoleEl (host s) =
           [mkLine "line log" "42";
            mkLine "line log" ("{" ++ dquote ++ "a" ++ dquote ++ ":1}")]).
Proof.
  split; eexists; (split; [vm_compute; reflexivity | reflexivity]).
Qed.





Lemma empty_code_no_lines_witness :
  exists s,
    steps Sample.engine Loop.init
      [Loop.Input Sample.ticker; Loop.Run; Loop.Load 0; Loop.Receive;
       Loop.Deliver; Loop.Input EmptyString;
       Loop.Run; Loop.Load 1; Loop.Timer; Loop.Timer; Loop.Receive;
       Loop.Receive; Loop.Receive] = Some s
    /\ consoleEl (host s) = [] /\ queue s = [].
Proof.
  eexists. split; [vm_compute; reflexivity|].
  refine ((fun H => conj (proj1 H) (proj1 (proj2 H)))
    (empty_code_no_lines Sample.engine
       [Loop.Input Sample.ticker; Loop.Run; Loop.Load 0; Loop.Receive;
        Loop.Deliver; Loop.Input EmptyString]
       [Loop.Load 1; Loop.Timer; Loop.Timer; Loop.Receive; Loop.Receive;
        Loop.Receive]
       (reached Sample.engine
          [Loop.Input Sample.ticker; Loop.Run; Loop.Load 0; Loop.Receive;
           Loop.Deliver; Loop.Input EmptyString]) _ _ _ _ _ _ _ _ _));
    vm_compute; reflexivity.
Defined.

(** C8 as stated fails when a message of the context before is under way
    while the empty text is run: the run clears the console, the message is
    delivered, and the console of the run of the empty text shows a line. *)
Lemma empty_run_shows_stale_line :
  exists s,
    steps Sample.engine Loop.init
      [Loop.Input Sample.ticker;
       Loop.Run; Loop.Load 0; Loop.Receive; Loop.Deliver; Loop.Fire 0;
       Loop.Input EmptyString; Loop.Run; Loop.Deliver] = Some s
    /\ editor (host s) = EmptyString
    /\ iframe (host s) = Some 1
    /\ consoleEl (host s) = [mkLine "line log" "tock"].
Proof. eexists. split; [vm_compute; reflexivity|]. repeat split. Qed.

End Races.
